(** * OMR order extraction: a shallow embedding of the Node.js service layer

    The development follows [services/pythonOMRProcessor.js] (the wrapper
    around the Python mark-detection engine and the order extractor), the
    [/api/omr/process] and [/api/omr/process-to-order] routes of
    [routes/omr.js], two routes of [routes/menu.js], the error handler of
    [middleware/validation.js], and [showResults] and [generateMarksGrid]
    of the browser front end.

    Modelling conventions.
    - JavaScript numbers that the code only compares ([Math.min]) are
      rationals [Q]: on finite doubles comparison is exact. The product
      with 100 in [showResults] is the exact product; it is evaluated
      only at integers, where it agrees with the product of doubles.
      The arithmetic on prices is left to the runtime ([number_plus],
      [number_times]).
    - A JavaScript object used as a dictionary is its list of own
      properties in creation order. Property names are the form's item
      names and the two mark types. [Object.prototype] is as the runtime
      starts it, and item names that every object inherits from it
      ([inherited_names]: "__proto__", "constructor", "toString", ...)
      are outside the model: for those the code finds an inherited value
      where the model finds none. Statements that would read
      differently for such names carry [plain_items] as a hypothesis.
    - The parsed engine output is typed after the engine contract
      ([{success, marks, confidence, ...}] with [marks] an array of
      marks); text that is not JSON makes [JSON.parse] throw. Output
      that parses to a value of another shape ([null], an object
      without a [marks] array) is outside the model.
    - A child process is taken not to create or delete files.
    - Asynchronous calls are awaited one after another, so a method is a
      computation in a monad with a read-only host, the set of existing
      files as state, and exceptions. *)

From Stdlib Require Import QArith Qminmax Qround DecimalString.
From stdpp Require Import gmap strings list pretty.

Open Scope string_scope.
Open Scope list_scope.

(** ** JavaScript runtime pieces the code relies on *)

Module Js.

(** An [Error] object; only [message] is ever read. *)
Record Error := mkError { message : string }.

(** Truthiness of a value that is a string or [undefined]. *)
Definition truthy (v : option string) : bool :=
  match v with
  | Some s => negb (String.eqb s "")
  | None => false
  end.

(** [a || b] where [a] is a string or [undefined] and [b] a string. *)
Definition or_else (a : option string) (b : string) : string :=
  match a with
  | Some s => if truthy a then s else b
  | None => b
  end.

(** [Math.min] on two finite numbers. *)
Definition Math_min (a b : Q) : Q := Qmin a b.

(** [Math.round]: the nearest integer, halves towards plus infinity. *)
Definition Math_round (x : Q) : Z := Qfloor (x + (1 # 2)).

(** An array index is a canonical numeric string below [2^32 - 1]. *)
Definition array_index (k : string) : option N :=
  match NilEmpty.uint_of_string k with
  | Some d =>
      let n := N.of_uint d in
      if decide (pretty n = k ∧ (n < 4294967295)%N) then Some n else None
  | None => None
  end.

Section Object.
Context {V : Type}.

(** [o[k]] for an own property. *)
Fixpoint get (o : list (string * V)) (k : string) : option V :=
  match o with
  | [] => None
  | (k', v) :: o' => if decide (k' = k) then Some v else get o' k
  end.

(** [o[k] = v]: an existing property keeps its place, a new one is
    created last. *)
Fixpoint set (o : list (string * V)) (k : string) (v : V)
  : list (string * V) :=
  match o with
  | [] => [(k, v)]
  | (k', v') :: o' =>
      if decide (k' = k) then (k', v) :: o' else (k', v') :: set o' k v
  end.

(** Insertion of an index-keyed entry into a list sorted by index. *)
Fixpoint insert_index (n : N) (e : string * V)
    (l : list (N * (string * V))) : list (N * (string * V)) :=
  match l with
  | [] => [(n, e)]
  | (m, e') :: l' =>
      if (n <? m)%N then (n, e) :: l else (m, e') :: insert_index n e l'
  end.

Fixpoint sort_index (l : list (N * (string * V)))
  : list (N * (string * V)) :=
  match l with
  | [] => []
  | (n, e) :: l' => insert_index n e (sort_index l')
  end.

Definition indexed (e : string * V) : option (N * (string * V)) :=
  match array_index e.1 with
  | Some n => Some (n, e)
  | None => None
  end.

Definition named (e : string * V) : bool :=
  match array_index e.1 with
  | Some _ => false
  | None => true
  end.

(** [Object.entries(o)]: array-index keys in ascending order, then the
    other keys in creation order. *)
Definition Object_entries (o : list (string * V)) : list (string * V) :=
  map snd (sort_index (omap indexed o)) ++ List.filter named o.

End Object.

End Js.

(** ** Data of the engine contract *)

(** One scored region of the form, as the engine prints it. The extractor
    reads [item], [type], [isMarked] and [confidence]. *)
Record Mark := mkMark {
  item : string;
  type : string;
  isMarked : bool;
  confidence : Q
}.

(** The parsed engine output ([result.data]). *)
Record EngineData := mkEngineData {
  data_success : bool;
  data_error : option string;
  marks : list Mark;
  data_confidence : Q;
  image_dimensions : Z * Z;
  total_marks_detected : Z;
  marked_items : list string
}.

(** An order line: [{item_name, quantity, confidence}]. *)
Record OrderLine := mkOrderLine {
  item_name : string;
  quantity : Z;
  line_confidence : Q
}.

(** What [processImage] returns: [{success, error, data}]. *)
Record ImageResult := mkImageResult {
  res_success : bool;
  res_error : option string;
  res_data : option EngineData
}.

(** What [extractOrderFromOMR] returns:
    [{success, error, orderItems, omrData}]. *)
Record OrderResult := mkOrderResult {
  ord_success : bool;
  ord_error : option string;
  orderItems : list OrderLine;
  omrData : option EngineData
}.

(** ** Host and effects *)

(** How a spawned child process ends: an ['error'] event, or ['close'] with
    an exit code ([null] when killed by a signal) and the collected
    output. *)
Inductive ProcOutcome :=
| ProcError (e : Js.Error)
| ProcClose (code : option Z) (stdout stderr : string).

(** The read-only surroundings of a call. *)
Record Host := mkHost {
  dirname : string;
  env_PYTHON_PATH : option string;
  path_join : string → string → string;
  spawn : string → list string → ProcOutcome;
  JSON_parse : string → Js.Error + EngineData;
  Date_now : Z
}.

(** A computation reads the host, threads the set of existing files and
    either throws or returns. *)
Definition M (A : Type) : Type :=
  Host → gset string → gset string * (Js.Error + A).

#[global] Instance M_ret : MRet M := λ A x _ fs, (fs, inr x).

#[global] Instance M_bind : MBind M := λ A B f c h fs,
  match c h fs with
  | (fs', inr x) => f x h fs'
  | (fs', inl e) => (fs', inl e)
  end.

Definition throw {A} (e : Js.Error) : M A := λ _ fs, (fs, inl e).

Definition try_catch {A} (body : M A) (handler : Js.Error → M A) : M A :=
  λ h fs,
    match body h fs with
    | (fs', inl e) => handler e h fs'
    | r => r
    end.

Definition ask : M Host := λ h fs, (fs, inr h).

(** The error of a system call on a missing path. *)
Definition ENOENT (syscall path : string) : Js.Error :=
  Js.mkError
    ("ENOENT: no such file or directory, " +:+ syscall +:+ " '" +:+ path +:+ "'").

(** [fs.access(path)]: resolves when the path exists. *)
Definition fs_access (path : string) : M () := λ _ fs,
  (fs, if decide (path ∈ fs) then inr () else inl (ENOENT "access" path)).

(** [fs.unlink(path)]: removes an existing file. *)
Definition fs_unlink (path : string) : M () := λ _ fs,
  if decide (path ∈ fs) then (fs ∖ {[path]}, inr ())
  else (fs, inl (ENOENT "unlink" path)).

(** A number or [null] inside a template literal. *)
Definition show_code (code : option Z) : string :=
  match code with
  | Some c => pretty c
  | None => "null"
  end.

(** A string or [undefined] inside a template literal. *)
Definition show_string (s : option string) : string :=
  match s with
  | Some s => s
  | None => "undefined"
  end.

(** ** The engine wrapper and the order extractor *)

Module PythonOMRProcessor.

(** The fields the constructor sets on [this]. *)
Record t := mk {
  pythonScriptPath : string;
  pythonExecutable : string
}.

Definition constructor (h : Host) : t :=
  {| pythonScriptPath := path_join h (dirname h) "../python/omr_processor.py";
     pythonExecutable := Js.or_else (env_PYTHON_PATH h) "python" |}.

(** [runPythonCommand]: resolves with stdout on exit code 0, rejects
    otherwise. *)
Definition runPythonCommand (this : t) (args : list string) : M string :=
  h ← ask;
  match spawn h (pythonExecutable this) args with
  | ProcError error => throw error
  | ProcClose code stdout stderr =>
      if decide (code = Some 0%Z) then mret stdout
      else throw (Js.mkError
             ("Python process exited with code " +:+ show_code code
                +:+ ": " +:+ stderr))
  end.

(** [processImage], lines 98 to 128. *)
Definition processImage (this : t) (imagePath : string) : M ImageResult :=
  try_catch
    (fs_access imagePath;;
     result ← runPythonCommand this [pythonScriptPath this; imagePath];
     h ← ask;
     match JSON_parse h result with
     | inl error => throw error
     | inr parsedResult =>
         mret {| res_success := true; res_error := None;
                 res_data := Some parsedResult |}
     end)
    (λ error,
       mret {| res_success := false; res_error := Some (Js.message error);
               res_data := None |}).

(** Body of [marks.forEach(mark => ...)], lines 143 to 148. *)
Definition group_step (itemGroups : list (string * gmap string Mark))
    (mark : Mark) : list (string * gmap string Mark) :=
  let itemGroups :=
    match Js.get itemGroups (item mark) with
    | None => Js.set itemGroups (item mark) ∅
    | Some _ => itemGroups
    end in
  match Js.get itemGroups (item mark) with
  | Some group => Js.set itemGroups (item mark) (<[type mark := mark]> group)
  | None => itemGroups
  end.

Definition groupMarks (marks : list Mark) : list (string * gmap string Mark) :=
  fold_left group_step marks [].

(** Body of the [for ... of Object.entries(itemGroups)] loop, lines 151
    to 168; [orderItems.push] appends. *)
Definition order_step (orderItems : list OrderLine)
    (entry : string * gmap string Mark) : list OrderLine :=
  let '(itemName, itemMarks) := entry in
  let quantityMark := itemMarks !! "quantity" in
  let selectionMark := itemMarks !! "selection" in
  match selectionMark with
  | Some sel =>
      if isMarked sel then
        let quantity :=
          if match quantityMark with
             | Some q => isMarked q
             | None => false
             end
          then 1%Z else 1%Z in
        orderItems ++
          [ {| item_name := itemName;
               quantity := quantity;
               line_confidence :=
                 Js.Math_min (confidence sel)
                   match quantityMark with
                   | Some q => confidence q
                   | None => 1%Q
                   end |} ]
      else orderItems
  | None => orderItems
  end.

(** Lines 138 to 168: from [result.data.marks] to [orderItems]. *)
Definition buildOrderItems (marks : list Mark) : list OrderLine :=
  fold_left order_step (Js.Object_entries (groupMarks marks)) [].

(** The [TypeError] of reading a property of [null]. *)
Definition null_read (property : string) : Js.Error :=
  Js.mkError ("Cannot read properties of null (reading '" +:+ property +:+ "')").

(** [extractOrderFromOMR], lines 130 to 184. The test
    [!result.success || !result.data.success] reads [result.data] only
    when [result.success] holds. *)
Definition extractOrderFromOMR (this : t) (imagePath : string) : M OrderResult :=
  try_catch
    (result ← processImage this imagePath;
     let failure : M OrderResult :=
       throw (Js.mkError (Js.or_else (res_error result) "OMR processing failed")) in
     if negb (res_success result) then failure
     else match res_data result with
          | None => throw (null_read "success")
          | Some data =>
              if negb (data_success data) then failure
              else mret {| ord_success := true; ord_error := None;
                           orderItems := buildOrderItems (marks data);
                           omrData := Some data |}
          end)
    (λ error,
       mret {| ord_success := false; ord_error := Some (Js.message error);
               orderItems := []; omrData := None |}).

(** [runCommand], lines 67 to 96: as [runPythonCommand], for any command. *)
Definition runCommand (command : string) (args : list string) : M string :=
  h ← ask;
  match spawn h command args with
  | ProcError error => throw error
  | ProcClose code stdout stderr =>
      if decide (code = Some 0%Z) then mret stdout
      else throw (Js.mkError
             ("Command exited with code " +:+ show_code code
                +:+ ": " +:+ stderr))
  end.

(** [checkPythonEnvironment], lines 11 to 20. *)
Definition checkPythonEnvironment (this : t) : M bool :=
  try_catch
    (runPythonCommand this ["--version"];; mret true)
    (λ error, mret false).

(** [installPythonDependencies], lines 22 to 34. *)
Definition installPythonDependencies (this : t) : M bool :=
  h ← ask;
  let requirementsPath := path_join h (dirname h) "../python/requirements.txt" in
  try_catch
    (runCommand (pythonExecutable this)
       ["-m"; "pip"; "install"; "-r"; requirementsPath];;
     mret true)
    (λ error, mret false).

(** [initialize], lines 186 to 203. *)
Definition initialize (this : t) : M bool :=
  pythonAvailable ← checkPythonEnvironment this;
  if negb pythonAvailable then
    throw (Js.mkError "Python environment not available")
  else
    depsInstalled ← installPythonDependencies this;
    if negb depsInstalled then
      throw (Js.mkError "Failed to install Python dependencies")
    else mret true.

End PythonOMRProcessor.

(** ** The database and the rest of the runtime, as the order route uses them *)

(** A row of [menu_items]; the route reads [id] and [price]. *)
Record MenuItem := mkMenuItem {
  mi_id : Z;
  mi_name : string;
  mi_price : Q
}.

(** One element of the [items] column after [JSON.parse]. *)
Record OrderItemRow := mkOrderItemRow {
  oi_id : Z;
  oi_menu_item_id : Z;
  oi_quantity : Z;
  oi_unit_price : Q;
  oi_total_price : Q;
  oi_menu_item_name : option string
}.

(** The row of the final [SELECT o.*, GROUP_CONCAT(...) as items]. *)
Record OrderRow := mkOrderRow {
  row_id : Z;
  row_order_number : string;
  row_customer_name : option string;
  row_table_number : option Z;
  row_status : string;
  row_total_amount : Q;
  row_notes : option string;
  row_items : option string
}.

(** The statements the order route issues, with their parameters:
    - [InsertOrder]: INSERT INTO orders (order_number, customer_name,
      table_number, notes) VALUES (?, ?, ?, ?)
    - [SelectMenuItem]: SELECT * FROM menu_items WHERE name = ?
    - [InsertOrderItem]: INSERT INTO order_items (order_id, menu_item_id,
      quantity, unit_price, total_price, special_instructions)
      VALUES (?, ?, ?, ?, ?, ?), the last parameter being [null]
    - [UpdateOrderTotal]: UPDATE orders SET total_amount = ? WHERE id = ?
    - [InsertOmrForm]: INSERT INTO omr_forms (form_type, image_path,
      processed_data, confidence_score) VALUES (?, ?, ?, ?)
    - [SelectCompleteOrder]: the final SELECT ... WHERE o.id = ? *)
Inductive DbCall :=
| InsertOrder (order_number : string) (customer_name table_number : option string)
    (notes : string)
| SelectMenuItem (name : string)
| InsertOrderItem (order_id menu_item_id quantity : Z) (unit_price total_price : Q)
| UpdateOrderTotal (total_amount : Q) (order_id : Z)
| InsertOmrForm (form_type image_path processed_data : string) (confidence_score : Q)
| SelectCompleteOrder (order_id : Z).

(** What the database and the runtime answer. Every answer of the
    database may depend on the calls issued so far. [number_plus] and
    [number_times] are the runtime's arithmetic on prices. *)
Record Backend := mkBackend {
  db_run : list DbCall → DbCall → Js.Error + Z;
  db_get_menu_item : list DbCall → string → Js.Error + option MenuItem;
  db_get_order : list DbCall → Z → Js.Error + option OrderRow;
  JSON_parse_items : string → Js.Error + list OrderItemRow;
  JSON_stringify : EngineData → string;
  random_1E4 : Z;
  number_plus : Q → Q → Q;
  number_times : Q → Z → Q
}.

(** The state a request handler can change: the files and the calls the
    database has received. *)
Record World := mkWorld {
  files : gset string;
  db_log : list DbCall
}.

(** Handlers that also talk to the database. *)
Definition R (A : Type) : Type :=
  Host → Backend → World → World * (Js.Error + A).

#[global] Instance R_ret : MRet R := λ A x _ _ w, (w, inr x).

#[global] Instance R_bind : MBind R := λ A B f c h b w,
  match c h b w with
  | (w', inr x) => f x h b w'
  | (w', inl e) => (w', inl e)
  end.

Definition throwR {A} (e : Js.Error) : R A := λ _ _ w, (w, inl e).

Definition try_catchR {A} (body : R A) (handler : Js.Error → R A) : R A :=
  λ h b w,
    match body h b w with
    | (w', inl e) => handler e h b w'
    | r => r
    end.

(** A computation on files alone, run inside a handler. *)
Definition lift {A} (c : M A) : R A := λ h _ w,
  let '(fs', r) := c h (files w) in
  ({| files := fs'; db_log := db_log w |}, r).

Definition surroundings : R (Host * Backend) := λ h b w, (w, inr (h, b)).

(** [db.run(sql, params)]: resolves with [this.lastID]. *)
Definition run_statement (call : DbCall) : R Z := λ _ b w,
  ({| files := files w; db_log := db_log w ++ [call] |},
   db_run b (db_log w) call).

(** [db.get('SELECT * FROM menu_items WHERE name = ?', [name])]. *)
Definition get_menu_item (name : string) : R (option MenuItem) := λ _ b w,
  ({| files := files w; db_log := db_log w ++ [SelectMenuItem name] |},
   db_get_menu_item b (db_log w) name).

(** [db.get] of the complete order. *)
Definition get_complete_order (order_id : Z) : R (option OrderRow) := λ _ b w,
  ({| files := files w; db_log := db_log w ++ [SelectCompleteOrder order_id] |},
   db_get_order b (db_log w) order_id).

(** The [TypeError] of reading a property of [undefined]. *)
Definition undefined_read (property : string) : Js.Error :=
  Js.mkError
    ("Cannot read properties of undefined (reading '" +:+ property +:+ "')").

(** ** The [POST /api/omr/process] route *)

Module OmrRoutes.

(** The part of the request the handler reads: [req.file.path] when a file
    was uploaded, and [req.body.form_type]. *)
Record Request := mkRequest {
  file_path : option string;
  form_type : option string
}.

(** The [data] object of a successful response. *)
Record ProcessData := mkProcessData {
  pd_id : Z;
  pd_form_type : option string;
  pd_marks : list Mark;
  pd_confidence : Q;
  pd_image_path : string;
  pd_processor : string;
  pd_image_dimensions : Z * Z;
  pd_total_marks_detected : Z;
  pd_marked_items : list string
}.

(** Status code and JSON body of a response. *)
Record Response := mkResponse {
  status : Z;
  body_success : bool;
  body_error : option string;
  body_message : option string;
  body_data : option ProcessData
}.

(** The handler of [router.post('/process', ...)], lines 416 to 488 of the
    routes file. *)
Definition post_process (processor : PythonOMRProcessor.t)
    (pythonProcessorReady : bool) (req : Request) : M Response :=
  match file_path req with
  | None =>
      mret {| status := 400; body_success := false;
              body_error := Some "No image file provided";
              body_message := None; body_data := None |}
  | Some imagePath =>
      try_catch
        (result ←
           (if pythonProcessorReady then
              pythonResult ← PythonOMRProcessor.processImage processor imagePath;
              if res_success pythonResult then mret (res_data pythonResult)
              else throw (Js.mkError ("Python processing failed: "
                            +:+ show_string (res_error pythonResult)))
            else throw (Js.mkError "Python OMR processor not available"));
         h ← ask;
         match result with
         | None => throw (PythonOMRProcessor.null_read "marks")
         | Some result =>
             mret {| status := 200; body_success := true; body_error := None;
                     body_message :=
                       Some "OMR processing completed successfully using Python OpenCV";
                     body_data := Some
                       {| pd_id := Date_now h;
                          pd_form_type := form_type req;
                          pd_marks := marks result;
                          pd_confidence := data_confidence result;
                          pd_image_path := imagePath;
                          pd_processor := "python-opencv";
                          pd_image_dimensions := image_dimensions result;
                          pd_total_marks_detected := total_marks_detected result;
                          pd_marked_items := marked_items result |} |}
         end)
        (λ error,
           try_catch (fs_unlink imagePath) (λ unlinkError, mret ());;
           mret {| status := 500; body_success := false;
                   body_error := Some "OMR processing failed";
                   body_message := Some (Js.message error);
                   body_data := None |})
  end.


(** The part of the request the order handler reads. *)
Record OrderRequest := mkOrderRequest {
  order_file_path : option string;
  customer_name : option string;
  table_number : option string;
  notes : option string
}.

(** [omr_result] of a created order. *)
Record OmrSummary := mkOmrSummary {
  os_marks : list Mark;
  os_confidence : Q;
  os_processor : string;
  os_image_dimensions : Z * Z;
  os_marked_items : list string
}.

(** Status code and JSON body of the order handler's response; [order]
    is the complete order row with its parsed items. *)
Record OrderResponse := mkOrderResponse {
  order_status : Z;
  order_body_success : bool;
  order_body_error : option string;
  order_body_message : option string;
  order_body_order : option (OrderRow * list OrderItemRow);
  order_body_omr_result : option OmrSummary
}.

(** The loop [for (const item of omrResult.orderItems)], lines 538 to
    555, with the running [totalAmount]. *)
Fixpoint insert_order_items (orderId : Z) (items : list OrderLine)
    (totalAmount : Q) : R Q :=
  match items with
  | [] => mret totalAmount
  | item :: items =>
      menuItem ← get_menu_item (item_name item);
      match menuItem with
      | None => insert_order_items orderId items totalAmount
      | Some menuItem =>
          '(_, b) ← surroundings;
          let unitPrice := mi_price menuItem in
          let totalPrice := number_times b unitPrice (quantity item) in
          let totalAmount := number_plus b totalAmount totalPrice in
          run_statement
            (InsertOrderItem orderId (mi_id menuItem) (quantity item)
               unitPrice totalPrice);;
          insert_order_items orderId items totalAmount
      end
  end.

(** Lines 560 to 602: store the OMR result, read the complete order back
    and respond with status 201. *)
Definition respond_with_order (imagePath : string) (orderId : Z)
    (omrData : option EngineData) : R OrderResponse :=
  '(_, b) ← surroundings;
  match omrData with
  | None => throwR (PythonOMRProcessor.null_read "confidence")
  | Some data =>
      run_statement
        (InsertOmrForm "menu_order" imagePath (JSON_stringify b data)
           (data_confidence data));;
      completeOrder ← get_complete_order orderId;
      match completeOrder with
      | None => throwR (undefined_read "items")
      | Some completeOrder =>
          items ←
            match row_items completeOrder with
            | Some text =>
                if Js.truthy (Some text) then
                  match JSON_parse_items b ("[" +:+ text +:+ "]") with
                  | inl error => throwR error
                  | inr items => mret items
                  end
                else mret []
            | None => mret []
            end;
          mret {| order_status := 201; order_body_success := true;
                  order_body_error := None;
                  order_body_message := Some
                    "Order created from OMR form successfully using Python OpenCV";
                  order_body_order := Some (completeOrder, items);
                  order_body_omr_result := Some
                    {| os_marks := marks data;
                       os_confidence := data_confidence data;
                       os_processor := "python-opencv";
                       os_image_dimensions := image_dimensions data;
                       os_marked_items := marked_items data |} |}
      end
  end.

(** Lines 526 to 602: create the order, its items and its total, then
    respond. *)
Definition create_order (req : OrderRequest) (imagePath : string)
    (omrResult : OrderResult) : R OrderResponse :=
  '(h, b) ← surroundings;
  let orderNumber :=
    "OMR-" +:+ pretty (Date_now h) +:+ "-" +:+ pretty (random_1E4 b) in
  orderId ← run_statement
    (InsertOrder orderNumber (customer_name req) (table_number req)
       (Js.or_else (notes req) "Order from OMR form"));
  totalAmount ← insert_order_items orderId (orderItems omrResult) 0;
  run_statement (UpdateOrderTotal totalAmount orderId);;
  respond_with_order imagePath orderId (omrData omrResult).

(** The handler of [router.post('/process-to-order', ...)], lines 491 to
    618 of the routes file. *)
Definition post_process_to_order (processor : PythonOMRProcessor.t)
    (pythonProcessorReady : bool) (req : OrderRequest) : R OrderResponse :=
  match order_file_path req with
  | None =>
      mret {| order_status := 400; order_body_success := false;
              order_body_error := Some "No image file provided";
              order_body_message := None; order_body_order := None;
              order_body_omr_result := None |}
  | Some imagePath =>
      try_catchR
        (omrResult ←
           (if pythonProcessorReady then
              pythonResult ←
                lift (PythonOMRProcessor.extractOrderFromOMR processor imagePath);
              if ord_success pythonResult then mret pythonResult
              else throwR (Js.mkError ("Python processing failed: "
                             +:+ show_string (ord_error pythonResult)))
            else throwR (Js.mkError "Python OMR processor not available"));
         if decide (length (orderItems omrResult) = 0) then
           mret {| order_status := 400; order_body_success := false;
                   order_body_error :=
                     Some "No valid selections found in the form";
                   order_body_message := None; order_body_order := None;
                   order_body_omr_result := None |}
         else create_order req imagePath omrResult)
        (λ error,
           try_catchR (lift (fs_unlink imagePath)) (λ unlinkError, mret ());;
           mret {| order_status := 500; order_body_success := false;
                   order_body_error := Some "Order processing failed";
                   order_body_message := Some (Js.message error);
                   order_body_order := None; order_body_omr_result := None |})
  end.

End OmrRoutes.

(** ** The error handling middleware *)

Module Validation.

(** A thrown error as the handler reads it: its [code], when it is a
    string, and its [message]. *)
Record Thrown := mkThrown {
  code : option string;
  message : string
}.

(** Status code and JSON body of the handler's answer. *)
Record Answer := mkAnswer {
  status : Z;
  error : string;
  answer_message : string
}.

(** [errorHandler], with [process.env.NODE_ENV] as [node_env]. *)
Definition errorHandler (node_env : option string) (err : Thrown) : Answer :=
  if decide (code err = Some "SQLITE_CONSTRAINT_UNIQUE") then
    {| status := 409; error := "Duplicate Entry";
       answer_message := "A record with this information already exists" |}
  else if decide (code err = Some "SQLITE_CONSTRAINT_FOREIGNKEY") then
    {| status := 400; error := "Invalid Reference";
       answer_message := "Referenced record does not exist" |}
  else if decide (code err = Some "LIMIT_FILE_SIZE") then
    {| status := 413; error := "File Too Large";
       answer_message := "File size exceeds the maximum allowed limit" |}
  else
    {| status := 500; error := "Internal Server Error";
       answer_message :=
         if decide (node_env = Some "development") then message err
         else "Something went wrong" |}.

End Validation.

(** ** The menu routes *)

Module MenuRoutes.

(** A value bound to a placeholder or read from a column. *)
Inductive SqlValue :=
| SqlText (s : string)
| SqlNumber (z : Z)
| SqlNull.

(** A statement as handed to [db.all], [db.get] or [db.run]. *)
Record Statement := mkStatement {
  sql : string;
  params : list SqlValue
}.

(** What the database answers to [db.all], [db.get] and [db.run], given
    the statements it has received so far. A row is the list of its
    columns; a run resolves to the last row id and the number of
    changes. *)
Record Database := mkDatabase {
  all_rows : list Statement → Statement → Js.Error + list (list (string * SqlValue));
  get_row : list Statement → Statement → Js.Error + option (list (string * SqlValue));
  run_result : list Statement → Statement → Js.Error + Z * Z
}.

(** A handler reads the database's answers and records the statements it
    sends. *)
Definition S (A : Type) : Type :=
  Database → list Statement → list Statement * (Js.Error + A).

#[global] Instance S_ret : MRet S := λ A x _ log, (log, inr x).

#[global] Instance S_bind : MBind S := λ A B f c db log,
  match c db log with
  | (log', inr x) => f x db log'
  | (log', inl e) => (log', inl e)
  end.

Definition db_all (st : Statement) : S (list (list (string * SqlValue))) :=
  λ db log, (log ++ [st], all_rows db log st).

Definition db_get (st : Statement) : S (option (list (string * SqlValue))) :=
  λ db log, (log ++ [st], get_row db log st).

Definition db_run (st : Statement) : S (Z * Z) :=
  λ db log, (log ++ [st], run_result db log st).

(** Status code and JSON body of a menu response. *)
Record Response := mkResponse {
  status : Z;
  success : bool;
  error : option string;
  message : option string;
  data : option (list (list (string * SqlValue)));
  count : option nat
}.

(** The statement [GET /api/menu] builds from [req.query], lines 224 to
    239 of the menu routes, for query values that are single strings. *)
Definition menu_query (category available : option string) : Statement :=
  let sql := "SELECT * FROM menu_items WHERE 1=1" in
  let params := [] in
  let '(sql, params) :=
    match category with
    | Some text =>
        if Js.truthy category then
          (sql +:+ " AND category = ?", params ++ [SqlText text])
        else (sql, params)
    | None => (sql, params)
    end in
  let '(sql, params) :=
    match available with
    | Some available =>
        (sql +:+ " AND is_available = ?",
         params ++ [SqlNumber (if String.eqb available "true" then 1 else 0)])
    | None => (sql, params)
    end in
  {| sql := sql +:+ " ORDER BY category, name"; params := params |}.

(** [GET /api/menu], lines 223 to 248. *)
Definition get_menu (category available : option string) : S Response :=
  menuItems ← db_all (menu_query category available);
  mret {| status := 200; success := true; error := None; message := None;
          data := Some menuItems; count := Some (length menuItems) |}.

(** [DELETE /api/menu/:id], lines 316 to 344. *)
Definition delete_menu_item (id : string) : S Response :=
  existingItem ← db_get
    (mkStatement "SELECT * FROM menu_items WHERE id = ?" [SqlText id]);
  match existingItem with
  | None =>
      mret {| status := 404; success := false;
              error := Some "Menu item not found"; message := None;
              data := None; count := None |}
  | Some _ =>
      orderItems ← db_all
        (mkStatement "SELECT id FROM order_items WHERE menu_item_id = ?"
           [SqlText id]);
      if decide (0 < length orderItems)%nat then
        mret {| status := 400; success := false;
                error := Some "Cannot delete menu item";
                message := Some
                  "This item is referenced in existing orders. Consider marking it as unavailable instead.";
                data := None; count := None |}
      else
        db_run (mkStatement "DELETE FROM menu_items WHERE id = ?" [SqlText id]);;
        mret {| status := 200; success := true; error := None;
                message := Some "Menu item deleted successfully";
                data := None; count := None |}
  end.

End MenuRoutes.

(** The number of placeholders in a statement's text. *)
Fixpoint placeholders (text : string) : nat :=
  match text with
  | EmptyString => 0
  | String c rest =>
      (if Ascii.eqb c (Ascii.ascii_of_nat 63) then 1 else 0) + placeholders rest
  end.

(** A statement that deletes. *)
Definition deletes (st : MenuRoutes.Statement) : Prop :=
  MenuRoutes.sql st = "DELETE FROM menu_items WHERE id = ?".

(** A menu with one row for id 2 that no order item references. *)
Definition unreferenced_menu : MenuRoutes.Database :=
  {| MenuRoutes.all_rows := λ _ _, inr [];
     MenuRoutes.get_row := λ _ _,
       inr (Some [("id", MenuRoutes.SqlNumber 2); ("name", MenuRoutes.SqlText "egg")]);
     MenuRoutes.run_result := λ _ _, inr (0%Z, 1%Z) |}.

(** ** The results dialog of the front end *)

Module Frontend.

(** [confidencePercent] of [showResults]. *)
Definition confidencePercent (data : OmrRoutes.ProcessData) : Z :=
  Js.Math_round (OmrRoutes.pd_confidence data * 100).

(** The line [<p><strong>Confidence:</strong> N%</p>] of the dialog. *)
Definition confidence_line (data : OmrRoutes.ProcessData) : string :=
  "<p><strong>Confidence:</strong> " +:+ pretty (confidencePercent data) +:+ "%</p>".

(** The double quote and the line break of the templates. *)
Definition dq : string := String (Ascii.ascii_of_nat 34) EmptyString.

Definition nl : string := String (Ascii.ascii_of_nat 10) EmptyString.

(** [menuItems] of [generateMarksGrid]. *)
Definition menuItems : list string :=
  ["isda"; "egg"; "water"; "sinigang"; "Chicken"; "pusit"; "gatas"; "beef"].

(** [itemMarks.find(mark => mark.type === ty)] over
    [marks.filter(mark => mark.item === name)]. *)
Definition findMark (marks : list Mark) (name ty : string) : option Mark :=
  List.find (λ mark, bool_decide (type mark = ty))
    (List.filter (λ mark, bool_decide (item mark = name)) marks).

(** [isSelected = selectionMark && selectionMark.isMarked], as a
    condition. *)
Definition isSelected (marks : list Mark) (name : string) : bool :=
  match findMark marks name "selection" with
  | Some selectionMark => isMarked selectionMark
  | None => false
  end.

(** [hasQuantity = quantityMark && quantityMark.isMarked], as a
    condition. *)
Definition hasQuantity (marks : list Mark) (name : string) : bool :=
  match findMark marks name "quantity" with
  | Some quantityMark => isMarked quantityMark
  | None => false
  end.

(** The template literal of one grid cell. *)
Definition mark_item (name : string) (isSelected hasQuantity : bool) : string :=
  nl +:+ "            <div class=" +:+ dq +:+ "mark-item " +:+ (if isSelected then "marked" else "") +:+ dq +:+ ">" +:+
  nl +:+ "                <h5>" +:+ name +:+ "</h5>" +:+
  nl +:+ "                <div class=" +:+ dq +:+ "mark-status " +:+ (if isSelected then "marked" else "unmarked") +:+ dq +:+ ">" +:+
  nl +:+ "                    " +:+ (if isSelected then "Selected" else "Not Selected") +:+
  nl +:+ "                </div>" +:+
  nl +:+ "                " +:+ (if hasQuantity
   then "<div class=" +:+ dq +:+ "quantity-info" +:+ dq +:+ ">Quantity marked</div>"
   else "") +:+
  nl +:+ "            </div>" +:+
  nl +:+ "        ".

(** [generateMarksGrid], lines 234 to 255. *)
Definition generateMarksGrid (marks : list Mark) : string :=
  String.concat ""
    (map (λ name, mark_item name (isSelected marks name) (hasQuantity marks name))
       menuItems).

End Frontend.


(** ** Reference notions for stating the properties *)

(** The last mark of the list with the given item and type, if any. *)
Definition lastMark (marks : list Mark) (X ty : string) : option Mark :=
  last (filter (λ mark, item mark = X ∧ type mark = ty) marks).

(** [itemGroups[X][ty]]. *)
Definition lookup2 (itemGroups : list (string * gmap string Mark))
    (X ty : string) : option Mark :=
  Js.get itemGroups X ≫= (λ group, group !! ty).

(** Item names in the order of their first occurrence. *)
Definition first_seen (names : list string) : list string :=
  fold_left (λ ks k, if decide (k ∈ ks) then ks else ks ++ [k]) names [].

(** The order line of item [X] in terms of the marks list: the last
    selection mark decides, the last quantity mark bounds the confidence. *)
Definition order_line (marks : list Mark) (X : string) : option OrderLine :=
  match lastMark marks X "selection" with
  | Some sel =>
      if isMarked sel then
        Some {| item_name := X; quantity := 1;
                line_confidence :=
                  Js.Math_min (confidence sel)
                    match lastMark marks X "quantity" with
                    | Some q => confidence q
                    | None => 1%Q
                    end |}
      else None
  | None => None
  end.

(** No two marks of the list share both item and type. *)
Definition unique_marks (marks : list Mark) : Prop :=
  NoDup ((λ mark, (item mark, type mark)) <$> marks).

(** The object the catch clause of [extractOrderFromOMR] returns for an
    error with the given message. *)
Definition failed_order (msg : string) : OrderResult :=
  {| ord_success := false; ord_error := Some msg;
     orderItems := []; omrData := None |}.

(** The object [extractOrderFromOMR] returns on its normal path. *)
Definition built_order (data : EngineData) : OrderResult :=
  {| ord_success := true; ord_error := None;
     orderItems := PythonOMRProcessor.buildOrderItems (marks data);
     omrData := Some data |}.

(** An order line for item [X] is among the order items. *)
Definition has_line (o : OrderResult) (X : string) : Prop :=
  ∃ line, line ∈ orderItems o ∧ item_name line = X.

(** Some mark of the list is a marked selection mark of item [X]. *)
Definition some_marked_selection (marks : list Mark) (X : string) : Prop :=
  ∃ mk, mk ∈ marks ∧ item mk = X ∧ type mk = "selection" ∧ isMarked mk = true.

(** The last selection mark of item [X] in the list is marked. *)
Definition last_selection_marked (marks : list Mark) (X : string) : Prop :=
  ∃ sel, lastMark marks X "selection" = Some sel ∧ isMarked sel = true.

(** Two mark lists that differ at most in the [isMarked] flags of their
    quantity marks. *)
Definition same_but_quantity_flag (a b : Mark) : Prop :=
  item a = item b ∧ type a = type b ∧ confidence a = confidence b ∧
  (type a ≠ "quantity" → isMarked a = isMarked b).

(** The property names a fresh object inherits from [Object.prototype]:
    for these names [itemGroups[name]] is not [undefined] although
    [itemGroups] has no such property of its own. *)
Definition inherited_names : list string :=
  [ "__proto__"; "constructor"; "hasOwnProperty"; "isPrototypeOf";
    "propertyIsEnumerable"; "toLocaleString"; "toString"; "valueOf";
    "__defineGetter__"; "__defineSetter__"; "__lookupGetter__";
    "__lookupSetter__" ].

(** No mark is filed under an inherited property name. *)
Definition plain_items (marks : list Mark) : Prop :=
  Forall (λ mark, item mark ∉ inherited_names) marks.

(** ** Sample surroundings *)

(** A host whose Python process prints [stdout] and exits with code 0,
    and whose [JSON.parse] reads [stdout] as [data]. *)
Definition sample_host (stdout : string) (data : EngineData) : Host :=
  {| dirname := "/srv/omr/services";
     env_PYTHON_PATH := None;
     path_join := λ a b, a +:+ "/" +:+ b;
     spawn := λ _ _, ProcClose (Some 0%Z) stdout "";
     JSON_parse := λ text,
       if String.eqb text stdout then inr data
       else inl (Js.mkError "Unexpected end of JSON input");
     Date_now := 1700000000000 |}.

Definition sample_path : string := "/srv/omr/uploads/omr-1.png".

Definition sample_files : gset string := {[ sample_path ]}.

Definition sample_data (marks : list Mark) (confidence : Q) : EngineData :=
  {| data_success := true; data_error := None; marks := marks;
     data_confidence := confidence; image_dimensions := (800, 600)%Z;
     total_marks_detected := 1; marked_items := ["egg"] |}.

(** Engine output that reports a failure. *)
Definition failed_data : EngineData :=
  {| data_success := false; data_error := Some "Could not load image";
     marks := []; data_confidence := 0; image_dimensions := (0, 0)%Z;
     total_marks_detected := 0; marked_items := [] |}.

(** Two selection marks for the same item, the marked one first. *)
Definition overwritten_marks : list Mark :=
  [ mkMark "egg" "selection" true (9 # 10);
    mkMark "egg" "selection" false (2 # 10) ].

(** Two selection marks for the same item, the unmarked one first. *)
Definition revived_marks : list Mark :=
  [ mkMark "egg" "selection" false (2 # 10);
    mkMark "egg" "selection" true (9 # 10) ].

(** One marked selection with its quantity mark, and an unmarked item. *)
Definition plain_marks : list Mark :=
  [ mkMark "isda" "quantity" false (3 # 10);
    mkMark "isda" "selection" false (2 # 10);
    mkMark "egg" "quantity" true (8 # 10);
    mkMark "egg" "selection" true (9 # 10) ].

(** [plain_marks] with the [isMarked] flag of every quantity mark flipped. *)
Definition plain_marks_flipped : list Mark :=
  [ mkMark "isda" "quantity" true (3 # 10);
    mkMark "isda" "selection" false (2 # 10);
    mkMark "egg" "quantity" false (8 # 10);
    mkMark "egg" "selection" true (9 # 10) ].

(** Modelled from the spec: the Result Aggregator of the Python engine,
    whose source is not part of the files at hand. The overall confidence
    is the mean of all per-mark confidences, scaled by 100. *)
Definition aggregate_confidence (marks : list Mark) : Q :=
  100 * foldr (λ mk acc, confidence mk + acc)%Q 0%Q marks
    / inject_Z (Z.of_nat (length marks)).

(** The marks of the sample response in the API documentation. *)
Definition documented_marks : list Mark :=
  [ mkMark "isda" "quantity" true (85 # 100) ].

(** A host whose Python process exits with code 1. *)
Definition crashing_host : Host :=
  {| dirname := "/srv/omr/services";
     env_PYTHON_PATH := None;
     path_join := λ a b, a +:+ "/" +:+ b;
     spawn := λ _ _, ProcClose (Some 1%Z) "" "cv2.error";
     JSON_parse := λ _, inl (Js.mkError "Unexpected end of JSON input");
     Date_now := 1700000000000 |}.

(** A marked selection for "egg", one for "isda", and a second selection
    mark for "egg". *)
Definition repeated_marks : list Mark :=
  [ mkMark "egg" "selection" true (9 # 10);
    mkMark "isda" "selection" true (8 # 10);
    mkMark "egg" "selection" true (7 # 10) ].

(** The object the catch clause of [processImage] returns for an error
    with the given message. *)
Definition failed_image (msg : string) : ImageResult :=
  {| res_success := false; res_error := Some msg; res_data := None |}.

(** A child process that closed with exit code 0. *)
Definition exit_ok (outcome : ProcOutcome) : bool :=
  match outcome with
  | ProcClose (Some 0%Z) _ _ => true
  | _ => false
  end.

(** The two commands [initialize] runs. *)
Definition version_command (this : PythonOMRProcessor.t) (h : Host) : ProcOutcome :=
  spawn h (PythonOMRProcessor.pythonExecutable this) ["--version"].

Definition pip_command (this : PythonOMRProcessor.t) (h : Host) : ProcOutcome :=
  spawn h (PythonOMRProcessor.pythonExecutable this)
    ["-m"; "pip"; "install"; "-r";
     path_join h (dirname h) "../python/requirements.txt"].

(** The command [processImage] runs on an image. *)
Definition script_command (this : PythonOMRProcessor.t) (h : Host)
    (imagePath : string) : ProcOutcome :=
  spawn h (PythonOMRProcessor.pythonExecutable this)
    [PythonOMRProcessor.pythonScriptPath this; imagePath].


(** The last selection mark of item [X] is marked, as a test. *)
Definition selected (marks : list Mark) (X : string) : bool :=
  match lastMark marks X "selection" with
  | Some sel => isMarked sel
  | None => false
  end.

(** The first mark of the list with the given item and type, if any. *)
Definition firstMark (marks : list Mark) (X ty : string) : option Mark :=
  head (filter (λ mark, item mark = X ∧ type mark = ty) marks).

(** [mark && mark.isMarked], as a condition. *)
Definition flag (mark : option Mark) : bool :=
  match mark with
  | Some mark => isMarked mark
  | None => false
  end.

(** The order lines hold a line for item [X]. *)
Definition listed (lines : list OrderLine) (X : string) : bool :=
  bool_decide (X ∈ item_name <$> lines).

(** A mark of one of the two types the extractor reads. *)
Definition read_by_extractor (mk : Mark) : Prop :=
  type mk = "selection" ∨ type mk = "quantity".

(** A computation that returned rather than threw. *)
Definition returned {A} (res : Js.Error + A) : Prop :=
  match res with
  | inr _ => True
  | inl _ => False
  end.

(** The calls the item loop of the order route issues for one order
    line: the menu look-up and, when it found the row [found], the
    insertion of the item. *)
Definition item_block (b : Backend) (orderId : Z) (line : OrderLine)
    (found : option MenuItem) : list DbCall :=
  SelectMenuItem (item_name line) ::
  match found with
  | Some menuItem =>
      [InsertOrderItem orderId (mi_id menuItem) (quantity line)
         (mi_price menuItem)
         (number_times b (mi_price menuItem) (quantity line))]
  | None => []
  end.

(** The database answered the menu look-ups of the item loop with
    [found]: the look-up for a line was issued after the calls for the
    lines before it, and was answered with the entry of [found] at the
    line's position. *)
Definition looked_up (b : Backend) (log : list DbCall) (orderId : Z)
    (lines : list OrderLine) (found : list (option MenuItem)) : Prop :=
  ∀ i line, lines !! i = Some line →
    ∃ answer, found !! i = Some answer ∧
      db_get_menu_item b
        (log ++ concat (take i (zip_with (item_block b orderId) lines found)))
        (item_name line) = inr answer.

(** The total the item loop accumulates from [start]: for every line
    whose look-up found a row, in the order of the lines, the runtime
    adds the row's price times the line's quantity. *)
Definition running_total (b : Backend) (lines : list OrderLine)
    (found : list (option MenuItem)) (start : Q) : Q :=
  fold_left
    (λ total lf,
       match lf.2 with
       | Some menuItem =>
           number_plus b total
             (number_times b (mi_price menuItem) (quantity lf.1))
       | None => total
       end)
    (zip lines found) start.

(** The order number the route builds. *)
Definition order_number (h : Host) (b : Backend) : string :=
  "OMR-" +:+ pretty (Date_now h) +:+ "-" +:+ pretty (random_1E4 b).

(** The first statement of the order route for a request. *)
Definition insert_order_call (h : Host) (b : Backend)
    (req : OmrRoutes.OrderRequest) : DbCall :=
  InsertOrder (order_number h b) (OmrRoutes.customer_name req)
    (OmrRoutes.table_number req)
    (Js.or_else (OmrRoutes.notes req) "Order from OMR form").

(** The response of the order route's catch clause. *)
Definition order_failure (msg : string) : OmrRoutes.OrderResponse :=
  {| OmrRoutes.order_status := 500; OmrRoutes.order_body_success := false;
     OmrRoutes.order_body_error := Some "Order processing failed";
     OmrRoutes.order_body_message := Some msg;
     OmrRoutes.order_body_order := None;
     OmrRoutes.order_body_omr_result := None |}.

(** The response of the order route to a form without selections. *)
Definition no_selection_response : OmrRoutes.OrderResponse :=
  {| OmrRoutes.order_status := 400; OmrRoutes.order_body_success := false;
     OmrRoutes.order_body_error := Some "No valid selections found in the form";
     OmrRoutes.order_body_message := None;
     OmrRoutes.order_body_order := None;
     OmrRoutes.order_body_omr_result := None |}.

(** A database that accepts every statement, knows "egg" at 25, and
    returns an order row without items. *)
Definition sample_backend : Backend :=
  {| db_run := λ log _, inr (Z.of_nat (length log) + 1)%Z;
     db_get_menu_item := λ _ name,
       inr (if String.eqb name "egg" then Some (mkMenuItem 2 "egg" 25) else None);
     db_get_order := λ _ id,
       inr (Some (mkOrderRow id "OMR-1700000000000-1234" None None "pending"
                    25 (Some "Order from OMR form") None));
     JSON_parse_items := λ _, inr [];
     JSON_stringify := λ _, "{...}";
     random_1E4 := 1234;
     number_plus := Qplus;
     number_times := λ price n, (price * inject_Z n)%Q |}.

(** As [sample_backend], but the update of the order total fails. *)
Definition failing_backend : Backend :=
  {| db_run := λ log call,
       match call with
       | UpdateOrderTotal _ _ => inl (Js.mkError "SQLITE_BUSY: database is locked")
       | _ => inr (Z.of_nat (length log) + 1)%Z
       end;
     db_get_menu_item := db_get_menu_item sample_backend;
     db_get_order := db_get_order sample_backend;
     JSON_parse_items := JSON_parse_items sample_backend;
     JSON_stringify := JSON_stringify sample_backend;
     random_1E4 := 1234;
     number_plus := Qplus;
     number_times := λ price n, (price * inject_Z n)%Q |}.

(** As [sample_backend], but with an empty menu. *)
Definition empty_menu_backend : Backend :=
  {| db_run := db_run sample_backend;
     db_get_menu_item := λ _ _, inr None;
     db_get_order := db_get_order sample_backend;
     JSON_parse_items := JSON_parse_items sample_backend;
     JSON_stringify := JSON_stringify sample_backend;
     random_1E4 := 1234;
     number_plus := Qplus;
     number_times := λ price n, (price * inject_Z n)%Q |}.

Definition sample_world : World :=
  {| files := sample_files; db_log := [] |}.

Definition sample_order_request : OmrRoutes.OrderRequest :=
  OmrRoutes.mkOrderRequest (Some sample_path) (Some "Ana") (Some "5") None.

(** * Properties *)

(** Unfolds the monad operations of a computation applied to a host and a
    file set. *)
Ltac run_monad :=
  unfold mbind, M_bind, mret, M_ret, throw, ask, try_catch.

(** The same for handlers that talk to the database. *)
Ltac run_handler :=
  unfold mbind, R_bind, mret, R_ret, throwR, try_catchR, surroundings,
    run_statement, get_menu_item, get_complete_order.

(** Decides [plain_items] of a concrete list of marks. *)
Ltac plain_items_by_evaluation :=
  unfold plain_items; apply (bool_decide_unpack _); vm_compute; exact I.

(** ** Objects as property lists *)

Section ObjectFacts.
Context {V : Type}.
Implicit Types (o : list (string * V)) (k : string) (v : V).

Lemma get_set_eq o k v : Js.get (Js.set o k v) k = Some v.
Proof.
  induction o as [|[k' v'] o IH]; simpl.
  - by rewrite decide_True.
  - destruct (decide (k' = k)) as [->|Hne]; simpl.
    + by rewrite decide_True.
    + by rewrite decide_False.
Qed.

Lemma get_set_ne o k k' v : k ≠ k' → Js.get (Js.set o k v) k' = Js.get o k'.
Proof.
  intros Hne. induction o as [|[k0 v0] o IH]; simpl.
  - by rewrite decide_False.
  - destruct (decide (k0 = k)) as [->|Hk0]; simpl.
    + by rewrite !decide_False.
    + by rewrite IH.
Qed.

Lemma get_None o k : Js.get o k = None ↔ k ∉ o.*1.
Proof.
  induction o as [|[k' v'] o IH]; simpl.
  - split; [intros _; apply not_elem_of_nil | done].
  - rewrite not_elem_of_cons. destruct (decide (k' = k)) as [->|Hne].
    + split; [done | intros [? _]; done].
    + rewrite IH. split; [by intros ?; split | by intros [_ ?]].
Qed.

Lemma get_Some_elem o k v : Js.get o k = Some v → (k, v) ∈ o.
Proof.
  induction o as [|[k' v'] o IH]; simpl; [done|].
  destruct (decide (k' = k)) as [->|Hne].
  - intros [= ->]. apply list_elem_of_here.
  - intros H. apply list_elem_of_further. auto.
Qed.

Lemma elem_get o k v : NoDup o.*1 → (k, v) ∈ o → Js.get o k = Some v.
Proof.
  induction o as [|[k' v'] o IH]; simpl.
  - intros _ H. by apply elem_of_nil in H.
  - rewrite NoDup_cons. intros [Hk' Hnd] [Heq|Hin]%elem_of_cons.
    + simplify_eq. simpl. by rewrite decide_True.
    + destruct (decide (k' = k)) as [->|Hne]; [|by apply IH].
      exfalso. apply Hk'. apply list_elem_of_fmap. by exists (k, v).
Qed.

Lemma keys_set o k v :
  (Js.set o k v).*1 = if decide (k ∈ o.*1) then o.*1 else o.*1 ++ [k].
Proof.
  induction o as [|[k' v'] o IH].
  - rewrite decide_False; [done | apply not_elem_of_nil].
  - cbn [Js.set]. destruct (decide (k' = k)) as [->|Hne]; rewrite !fmap_cons.
    + rewrite decide_True; [done | apply list_elem_of_here].
    + rewrite IH. destruct (decide (k ∈ o.*1)) as [Hin|Hnin].
      * rewrite decide_True; [done | by apply list_elem_of_further].
      * rewrite decide_False; [done|]. rewrite not_elem_of_cons. naive_solver.
Qed.

Lemma NoDup_keys_set o k v : NoDup o.*1 → NoDup (Js.set o k v).*1.
Proof.
  intros Hnd. rewrite keys_set. case_decide; [done|].
  apply NoDup_app. split_and!; [done | | apply NoDup_singleton].
  by intros x Hx ->%list_elem_of_singleton.
Qed.

End ObjectFacts.

(** [Object.entries] lists every own property exactly once. *)

Section EntriesFacts.
Context {V : Type}.
Implicit Types (o : list (string * V)) (l : list (N * (string * V))).

Lemma insert_index_perm n e l : Js.insert_index n e l ≡ₚ (n, e) :: l.
Proof.
  induction l as [|[m' e'] l IH]; simpl; [done|].
  destruct (n <? m')%N; [done|]. rewrite IH. apply Permutation_swap.
Qed.

Lemma sort_index_perm l : Js.sort_index l ≡ₚ l.
Proof.
  induction l as [|[n e] l IH]; simpl; [done|].
  by rewrite insert_index_perm, IH.
Qed.

Lemma Object_entries_perm o : Js.Object_entries o ≡ₚ o.
Proof.
  unfold Js.Object_entries. rewrite sort_index_perm.
  induction o as [|e o IH]; [done|].
  cbn [omap list_omap List.filter]. unfold Js.indexed at 1, Js.named at 1.
  destruct (Js.array_index e.1); simpl.
  - by rewrite IH.
  - rewrite <- Permutation_middle. by rewrite IH.
Qed.

Lemma elem_of_Object_entries o e : e ∈ Js.Object_entries o ↔ e ∈ o.
Proof. by rewrite Object_entries_perm. Qed.

Lemma keys_Object_entries_perm o : (Js.Object_entries o).*1 ≡ₚ o.*1.
Proof. by rewrite Object_entries_perm. Qed.

End EntriesFacts.

(** The order of [Object.entries] is decided by the keys alone. *)

Section EntriesMap.
Context {V W : Type} (f : V → W).

Lemma insert_index_fmap n e (l : list (N * (string * V))) :
  prod_map id (prod_map id f) <$> Js.insert_index n e l
  = Js.insert_index n (prod_map id f e) (prod_map id (prod_map id f) <$> l).
Proof.
  induction l as [|[m' e'] l IH]; [done|].
  rewrite fmap_cons. cbn [Js.insert_index prod_map fst snd id].
  destruct (n <? m')%N; [done|]. by rewrite fmap_cons, IH.
Qed.

Lemma sort_index_fmap (l : list (N * (string * V))) :
  prod_map id (prod_map id f) <$> Js.sort_index l
  = Js.sort_index (prod_map id (prod_map id f) <$> l).
Proof.
  induction l as [|[n e] l IH]; [done|].
  cbn [Js.sort_index]. by rewrite insert_index_fmap, IH.
Qed.

Lemma indexed_fmap (e : string * V) :
  Js.indexed (prod_map id f e) = prod_map id (prod_map id f) <$> Js.indexed e.
Proof. destruct e as [k v]. unfold Js.indexed. simpl. by destruct (Js.array_index k). Qed.

Lemma named_fmap (e : string * V) : Js.named (prod_map id f e) = Js.named e.
Proof. by destruct e. Qed.

Lemma Object_entries_fmap (o : list (string * V)) :
  Js.Object_entries (prod_map id f <$> o)
  = prod_map id f <$> Js.Object_entries o.
Proof.
  unfold Js.Object_entries. rewrite fmap_app. f_equal.
  - assert (omap Js.indexed (prod_map id f <$> o)
            = prod_map id (prod_map id f) <$> omap Js.indexed o) as ->.
    { induction o as [|e o IH]; [done|].
      rewrite fmap_cons. cbn [omap list_omap]. rewrite indexed_fmap, IH.
      by destruct (Js.indexed e). }
    rewrite <- sort_index_fmap.
    rewrite <- !list_fmap_compose. apply list_fmap_ext. by intros ? [? [? ?]].
  - induction o as [|e o IH]; [done|].
    rewrite fmap_cons. cbn [List.filter]. rewrite named_fmap, IH.
    by destruct (Js.named e).
Qed.

End EntriesMap.

Lemma keys_Object_entries {V W} (o : list (string * V)) (o' : list (string * W)) :
  o.*1 = o'.*1 → (Js.Object_entries o).*1 = (Js.Object_entries o').*1.
Proof.
  intros Hkeys.
  assert (∀ U (p : list (string * U)),
    (Js.Object_entries p).*1
    = (Js.Object_entries ((λ k, (k, ())) <$> p.*1)).*1) as Hunit.
  { intros U p.
    replace ((λ k, (k, ())) <$> p.*1) with (prod_map id (λ _ : U, ()) <$> p)
      by (rewrite <- list_fmap_compose; apply list_fmap_ext; by intros ? [? ?]).
    rewrite Object_entries_fmap, <- list_fmap_compose.
    apply list_fmap_ext. by intros ? [? ?]. }
  by rewrite (Hunit V o), (Hunit W o'), Hkeys.
Qed.

(** ** The grouping loop *)

Section Grouping.
Import PythonOMRProcessor.
Implicit Types (g : list (string * gmap string Mark)) (mk : Mark).

Lemma groupMarks_snoc marks mk :
  groupMarks (marks ++ [mk]) = group_step (groupMarks marks) mk.
Proof. unfold groupMarks. by rewrite fold_left_app. Qed.

Lemma lookup2_group_step g mk X ty :
  lookup2 (group_step g mk) X ty
  = if decide (item mk = X ∧ type mk = ty) then Some mk else lookup2 g X ty.
Proof.
  unfold lookup2, group_step.
  destruct (Js.get g (item mk)) as [group|] eqn:Hg.
  - rewrite Hg. destruct (decide (item mk = X)) as [<-|HX].
    + rewrite get_set_eq, Hg. simpl.
      destruct (decide (type mk = ty)) as [<-|Hty].
      * rewrite decide_True by done. apply lookup_insert_eq.
      * rewrite decide_False by tauto. by apply lookup_insert_ne.
    + rewrite get_set_ne by done. rewrite decide_False by tauto. done.
  - rewrite get_set_eq. destruct (decide (item mk = X)) as [<-|HX].
    + rewrite get_set_eq, Hg. simpl.
      destruct (decide (type mk = ty)) as [<-|Hty].
      * rewrite decide_True by done. apply lookup_insert_eq.
      * rewrite decide_False by tauto. rewrite lookup_insert_ne by done.
        apply lookup_empty.
    + rewrite !get_set_ne by done. rewrite decide_False by tauto. done.
Qed.

Lemma lastMark_snoc marks mk X ty :
  lastMark (marks ++ [mk]) X ty
  = if decide (item mk = X ∧ type mk = ty) then Some mk else lastMark marks X ty.
Proof.
  unfold lastMark. rewrite filter_app.
  destruct (decide (item mk = X ∧ type mk = ty)) as [H|H].
  - rewrite filter_cons_True by done. apply last_snoc.
  - rewrite filter_cons_False by done. by rewrite filter_nil, app_nil_r.
Qed.

(** The grouping loop stores under [itemGroups[X][ty]] the last mark of
    item [X] and type [ty]. *)
Lemma lookup2_groupMarks marks X ty :
  lookup2 (groupMarks marks) X ty = lastMark marks X ty.
Proof.
  induction marks as [|mk marks IH] using rev_ind; [done|].
  by rewrite groupMarks_snoc, lookup2_group_step, lastMark_snoc, IH.
Qed.

Lemma keys_group_step g mk :
  (group_step g mk).*1
  = if decide (item mk ∈ g.*1) then g.*1 else g.*1 ++ [item mk].
Proof.
  unfold group_step. destruct (Js.get g (item mk)) as [group|] eqn:Hg.
  - rewrite Hg, keys_set. assert (item mk ∈ g.*1) as Hin.
    { destruct (decide (item mk ∈ g.*1)) as [|Hn]; [done|].
      apply get_None in Hn. congruence. }
    by rewrite !decide_True.
  - rewrite get_set_eq, !keys_set. apply get_None in Hg.
    rewrite (decide_False (P := item mk ∈ g.*1)) by done.
    rewrite decide_True; [done|]. apply elem_of_app. right. apply list_elem_of_here.
Qed.

Lemma keys_groupMarks marks : (groupMarks marks).*1 = first_seen (item <$> marks).
Proof.
  induction marks as [|mk marks IH] using rev_ind; [done|].
  rewrite groupMarks_snoc, keys_group_step, IH. unfold first_seen.
  by rewrite fmap_app, fold_left_app.
Qed.

Lemma NoDup_keys_groupMarks marks : NoDup (groupMarks marks).*1.
Proof.
  induction marks as [|mk marks IH] using rev_ind; [apply NoDup_nil_2|].
  rewrite groupMarks_snoc, keys_group_step. case_decide; [done|].
  apply NoDup_app. split_and!; [done | | apply NoDup_singleton].
  by intros x Hx ->%list_elem_of_singleton.
Qed.

Lemma elem_of_keys_groupMarks marks X :
  X ∈ (groupMarks marks).*1 ↔ X ∈ item <$> marks.
Proof.
  induction marks as [|mk marks IH] using rev_ind; [done|].
  rewrite groupMarks_snoc, keys_group_step, fmap_app, elem_of_app.
  simpl. rewrite list_elem_of_singleton, <- IH.
  case_decide as Hin.
  - split; [tauto|]. intros [?| ->]; done.
  - by rewrite elem_of_app, list_elem_of_singleton.
Qed.

End Grouping.

(** ** The selection loop *)

Section Selection.
Import PythonOMRProcessor.

Lemma entry_lookup marks k group ty :
  (k, group) ∈ groupMarks marks → group !! ty = lastMark marks k ty.
Proof.
  intros Hin. apply elem_get in Hin; [|apply NoDup_keys_groupMarks].
  rewrite <- lookup2_groupMarks. unfold lookup2. by rewrite Hin.
Qed.

Lemma order_step_order_line marks acc k group :
  (k, group) ∈ groupMarks marks →
  order_step acc (k, group) = acc ++ option_list (order_line marks k).
Proof.
  intros Hin. unfold order_step, order_line.
  rewrite <- !(entry_lookup marks k group) by done.
  destruct (group !! "selection") as [sel|]; [|by rewrite app_nil_r].
  destruct (isMarked sel); [|by rewrite app_nil_r].
  simpl. by destruct (group !! "quantity") as [[? ? [] ?]|].
Qed.

Lemma fold_order_step marks entries acc :
  (∀ e, e ∈ entries → e ∈ groupMarks marks) →
  fold_left order_step entries acc = acc ++ omap (order_line marks) entries.*1.
Proof.
  revert acc. induction entries as [|[k group] entries IH]; intros acc Hsub.
  - by rewrite app_nil_r.
  - cbn [fold_left]. rewrite IH by (intros; apply Hsub; by apply list_elem_of_further).
    rewrite (order_step_order_line marks) by (apply Hsub, list_elem_of_here).
    rewrite fmap_cons. cbn [omap list_omap fst].
    rewrite <- app_assoc. by destruct (order_line marks k).
Qed.

(** The order items are the order lines of the grouped item names, taken
    in the order of [Object.entries]. *)
Lemma buildOrderItems_order_line marks :
  buildOrderItems marks
  = omap (order_line marks) (Js.Object_entries (groupMarks marks)).*1.
Proof.
  unfold buildOrderItems. rewrite (fold_order_step marks); [done|].
  intros e. by rewrite elem_of_Object_entries.
Qed.

Lemma elem_of_buildOrderItems marks line :
  line ∈ buildOrderItems marks
  ↔ ∃ X, X ∈ item <$> marks ∧ order_line marks X = Some line.
Proof.
  rewrite buildOrderItems_order_line, list_elem_of_omap.
  by setoid_rewrite keys_Object_entries_perm;
     setoid_rewrite elem_of_keys_groupMarks.
Qed.

Lemma order_line_Some marks X line :
  order_line marks X = Some line →
  item_name line = X ∧ quantity line = 1%Z ∧
  ∃ sel, lastMark marks X "selection" = Some sel ∧ isMarked sel = true ∧
    line_confidence line
    = Js.Math_min (confidence sel)
        match lastMark marks X "quantity" with
        | Some q => confidence q
        | None => 1%Q
        end.
Proof.
  unfold order_line. destruct (lastMark marks X "selection") as [sel|]; [|done].
  destruct (isMarked sel) eqn:Hsel; [|done].
  intros [= <-]. simpl. split_and!; [done..|]. by exists sel.
Qed.

Lemma lastMark_Some marks X ty mk :
  lastMark marks X ty = Some mk → mk ∈ marks ∧ item mk = X ∧ type mk = ty.
Proof.
  unfold lastMark. intros Hlast.
  assert (mk ∈ filter (λ mark, item mark = X ∧ type mark = ty) marks) as Hin.
  { apply last_Some in Hlast as [l' ->]. apply elem_of_app. right.
    apply list_elem_of_here. }
  apply list_elem_of_filter in Hin. tauto.
Qed.

Lemma lastMark_None marks X ty :
  lastMark marks X ty = None
  ↔ ∀ mk, mk ∈ marks → ¬ (item mk = X ∧ type mk = ty).
Proof.
  unfold lastMark. rewrite last_None.
  split.
  - intros Hnil mk Hin Hp.
    assert (mk ∈ filter (λ mark, item mark = X ∧ type mark = ty) marks) as H
      by (by apply list_elem_of_filter).
    rewrite Hnil in H. by apply elem_of_nil in H.
  - intros Hall. induction marks as [|mk marks IH]; [done|].
    rewrite filter_cons_False by (apply Hall, list_elem_of_here).
    apply IH. intros mk' Hin. by apply Hall, list_elem_of_further.
Qed.

End Selection.

(** ** Running the wrapper *)

Section Running.
Import PythonOMRProcessor.

Lemma ENOENT_nonempty syscall path : Js.message (ENOENT syscall path) ≠ "".
Proof. done. Qed.

Lemma or_else_nonempty a b : b ≠ "" → Js.or_else a b ≠ "".
Proof.
  intros Hb. destruct a as [s|]; simpl; [|done].
  destruct (String.eqb s "") eqn:Hs; simpl; [done|].
  by apply String.eqb_neq in Hs.
Qed.

Lemma or_else_falsy a b : Js.truthy a = false → Js.or_else a b = b.
Proof. destruct a as [s|]; simpl; [|done]. by intros ->. Qed.

Lemma or_else_truthy s b : s ≠ "" → Js.or_else (Some s) b = s.
Proof. intros Hs. simpl. apply String.eqb_neq in Hs. by rewrite Hs. Qed.

(** [processImage] always returns an object, leaves the files as they
    are, and its result has one of two shapes. *)
Lemma processImage_run this imagePath h fs :
  ∃ r, processImage this imagePath h fs = (fs, inr r) ∧
    ((res_success r = true ∧ res_error r = None ∧ ∃ d, res_data r = Some d)
     ∨ (res_success r = false ∧ res_data r = None ∧ ∃ msg, res_error r = Some msg)) ∧
    (imagePath ∉ fs →
       res_success r = false ∧
       res_error r = Some (Js.message (ENOENT "access" imagePath))).
Proof.
  unfold processImage, runPythonCommand, fs_access. run_monad.
  destruct (decide (imagePath ∈ fs)) as [Hin|Hnin].
  - destruct (spawn h _ _) as [perr|code out err].
    + eexists. split; [done|]. split; [right; simpl; eauto | done].
    + destruct (decide (code = Some 0%Z)).
      * destruct (JSON_parse h out) as [jerr|d].
        -- eexists. split; [done|]. split; [right; simpl; eauto | done].
        -- eexists. split; [done|]. split; [left; simpl; eauto | done].
      * eexists. split; [done|]. split; [right; simpl; eauto | done].
  - eexists. split; [done|]. split; [right; simpl; eauto | done].
Qed.

(** The three ways a call of [extractOrderFromOMR] goes. *)
Lemma extractOrderFromOMR_run this imagePath h fs :
  ∃ r, processImage this imagePath h fs = (fs, inr r) ∧
    ((res_success r = false ∧ res_data r = None ∧
      (∃ msg, res_error r = Some msg) ∧
      extractOrderFromOMR this imagePath h fs
      = (fs, inr (failed_order (Js.or_else (res_error r) "OMR processing failed"))))
     ∨ (∃ d, res_success r = true ∧ res_data r = Some d ∧ res_error r = None ∧
          data_success d = false ∧
          extractOrderFromOMR this imagePath h fs
          = (fs, inr (failed_order "OMR processing failed")))
     ∨ (∃ d, res_success r = true ∧ res_data r = Some d ∧ res_error r = None ∧
          data_success d = true ∧
          extractOrderFromOMR this imagePath h fs = (fs, inr (built_order d)))).
Proof.
  destruct (processImage_run this imagePath h fs) as (r & Hrun & Hshape & _).
  exists r. split; [done|].
  unfold extractOrderFromOMR. run_monad. rewrite Hrun.
  destruct Hshape as [(Hs & He & d & Hd)|(Hs & Hd & msg & He)].
  - right. rewrite Hs, Hd, He. simpl.
    destruct (data_success d) eqn:Hds; simpl.
    + right. exists d. by split_and!.
    + left. exists d. by split_and!.
  - left. rewrite Hs. simpl. split_and!; [done..|by exists msg|done].
Qed.

End Running.

(** ** Order extraction *)

Section Extraction.
Import PythonOMRProcessor.

(** A successful call returns the engine data and the order items built
    from its marks. *)
Lemma successful_run this imagePath h fs fs' o :
  extractOrderFromOMR this imagePath h fs = (fs', inr o) →
  ord_success o = true →
  ∃ d, omrData o = Some d ∧ data_success d = true ∧
       orderItems o = buildOrderItems (marks d).
Proof.
  intros Hrun Hok.
  destruct (extractOrderFromOMR_run this imagePath h fs)
    as (r & _ & [(_ & _ & _ & Hx)|[(d & _ & _ & _ & _ & Hx)|(d & _ & _ & _ & Hd & Hx)]]);
    rewrite Hx in Hrun; simplify_eq; [done..|].
  by exists d.
Qed.

Lemma has_line_last_selection marks X :
  (∃ line, line ∈ buildOrderItems marks ∧ item_name line = X)
  ↔ last_selection_marked marks X.
Proof.
  split.
  - intros (line & Hin & Hname).
    apply elem_of_buildOrderItems in Hin as (Y & _ & Hline).
    apply order_line_Some in Hline as (HY & _ & sel & Hsel & Hm & _).
    exists sel. by rewrite <- Hname, HY.
  - intros (sel & Hsel & Hm).
    assert (∃ line, order_line marks X = Some line) as [line Hline].
    { unfold order_line. rewrite Hsel, Hm. eauto. }
    exists line. split.
    + apply elem_of_buildOrderItems. exists X. split; [|done].
      apply lastMark_Some in Hsel as (Hin & <- & _).
      apply list_elem_of_fmap. by exists sel.
    + by apply order_line_Some in Hline as (? & _).
Qed.

Lemma lastMark_unique marks mk :
  unique_marks marks → mk ∈ marks →
  lastMark marks (item mk) (type mk) = Some mk.
Proof.
  unfold unique_marks.
  induction marks as [|mk' marks IH] using rev_ind; intros Hnd Hin.
  - by apply elem_of_nil in Hin.
  - rewrite lastMark_snoc. rewrite fmap_app in Hnd.
    apply NoDup_app in Hnd as (Hnd & Hfresh & _).
    apply elem_of_app in Hin as [Hin| ->%list_elem_of_singleton].
    + rewrite decide_False; [by apply IH|].
      intros [Hi Ht]. apply (Hfresh (item mk, type mk)).
      * apply list_elem_of_fmap. by exists mk.
      * simpl. rewrite Hi, Ht. apply list_elem_of_here.
    + by rewrite decide_True.
Qed.

Lemma last_selection_unique marks X :
  unique_marks marks →
  last_selection_marked marks X ↔ some_marked_selection marks X.
Proof.
  intros Hnd. split.
  - intros (sel & Hsel & Hm). exists sel.
    apply lastMark_Some in Hsel. tauto.
  - intros (mk & Hin & <- & Hty & Hm). exists mk. split; [|done].
    rewrite <- Hty. by apply lastMark_unique.
Qed.

Lemma Math_min_l a b : (a <= b)%Q → Js.Math_min a b = a.
Proof.
  intros Hle. unfold Js.Math_min, Qmin, GenericMinMax.gmin.
  destruct (a ?= b)%Q eqn:Hc; [done..|].
  by apply Qle_alt in Hle.
Qed.

(** Every returned order line comes from a successful call. *)
Lemma line_run this imagePath h fs fs' o line :
  extractOrderFromOMR this imagePath h fs = (fs', inr o) →
  line ∈ orderItems o →
  ∃ d, omrData o = Some d ∧ ord_success o = true ∧
       order_line (marks d) (item_name line) = Some line.
Proof.
  intros Hrun Hin.
  destruct (extractOrderFromOMR_run this imagePath h fs)
    as (r & _ & [(_ & _ & _ & Hx)|[(d & _ & _ & _ & _ & Hx)|(d & _ & _ & _ & Hd & Hx)]]);
    rewrite Hx in Hrun; simplify_eq; try (by apply elem_of_nil in Hin).
  exists d. split_and!; [done..|]. simpl in Hin.
  apply elem_of_buildOrderItems in Hin as (X & _ & Hline).
  by destruct (order_line_Some _ _ _ Hline) as (<- & _).
Qed.

Lemma lastMark_cons mk marks X ty :
  lastMark (mk :: marks) X ty
  = match lastMark marks X ty with
    | Some x => Some x
    | None => if decide (item mk = X ∧ type mk = ty) then Some mk else None
    end.
Proof.
  unfold lastMark. destruct (decide (item mk = X ∧ type mk = ty)) as [H|H].
  - rewrite filter_cons_True by done. apply last_cons.
  - rewrite filter_cons_False by done. by destruct (last _).
Qed.

(** The order items are decided by the sequence of item names and by the
    order line of each item. *)
Lemma buildOrderItems_ext marks marks' :
  item <$> marks = item <$> marks' →
  (∀ X, order_line marks X = order_line marks' X) →
  buildOrderItems marks = buildOrderItems marks'.
Proof.
  intros Hitems Hlines. rewrite !buildOrderItems_order_line.
  rewrite (keys_Object_entries (groupMarks marks) (groupMarks marks'))
    by (by rewrite !keys_groupMarks, Hitems).
  apply list_omap_ext, Forall2_same_length_lookup. split; [done|].
  intros i X Y HX HY. rewrite HX in HY. injection HY as <-. apply Hlines.
Qed.

Lemma buildOrderItems_perm marks marks' :
  (∀ X, X ∈ item <$> marks ↔ X ∈ item <$> marks') →
  (∀ X, order_line marks X = order_line marks' X) →
  buildOrderItems marks ≡ₚ buildOrderItems marks'.
Proof.
  intros Hitems Hlines. rewrite !buildOrderItems_order_line.
  assert ((Js.Object_entries (groupMarks marks)).*1
          ≡ₚ (Js.Object_entries (groupMarks marks')).*1) as ->.
  { rewrite !keys_Object_entries_perm.
    apply NoDup_Permutation; [apply NoDup_keys_groupMarks..|].
    intros X. by rewrite !elem_of_keys_groupMarks. }
  assert (∀ l, omap (order_line marks) l = omap (order_line marks') l) as ->.
  { intros l. apply list_omap_ext, Forall2_same_length_lookup. split; [done|].
    intros i X Y HX HY. rewrite HX in HY. injection HY as <-. apply Hlines. }
  done.
Qed.

Lemma same_but_quantity_flag_items marks marks' :
  Forall2 same_but_quantity_flag marks marks' → item <$> marks = item <$> marks'.
Proof.
  induction 1 as [|a b l l' (Hi & _) _ IH]; [done|].
  by rewrite !fmap_cons, Hi, IH.
Qed.

(** Related lists have related last marks. *)
Lemma same_but_quantity_flag_lastMark marks marks' X ty :
  Forall2 same_but_quantity_flag marks marks' →
  option_Forall2 same_but_quantity_flag
    (lastMark marks X ty) (lastMark marks' X ty).
Proof.
  induction 1 as [|a b l l' Hab _ IH]; [constructor|].
  rewrite !lastMark_cons. destruct IH as [x y Hxy|]; [by constructor|].
  pose proof Hab as (Hi & Ht & _). rewrite <- Hi, <- Ht.
  case_decide; by constructor.
Qed.

Lemma same_but_quantity_flag_order_line marks marks' X :
  Forall2 same_but_quantity_flag marks marks' →
  order_line marks X = order_line marks' X.
Proof.
  intros Hrel. unfold order_line.
  pose proof (same_but_quantity_flag_lastMark _ _ X "selection" Hrel) as Hsel.
  pose proof (same_but_quantity_flag_lastMark _ _ X "quantity" Hrel) as Hqty.
  destruct (lastMark marks X "selection") as [sel|] eqn:Hs;
    inversion Hsel as [? sel' (_ & _ & Hc & Hm) Heq Heq'|]; subst; [|done].
  apply lastMark_Some in Hs as (_ & _ & Hty).
  rewrite <- Hm, <- Hc by (by rewrite Hty).
  destruct (isMarked sel); [|done].
  by destruct Hqty as [q q' (_ & _ & -> & _)|].
Qed.

(** A call that hands back engine data built its order items from them. *)
Lemma data_run this imagePath h fs fs' o d :
  extractOrderFromOMR this imagePath h fs = (fs', inr o) →
  omrData o = Some d →
  ord_success o = true ∧ data_success d = true ∧
  orderItems o = buildOrderItems (marks d).
Proof.
  intros Hrun Hd.
  destruct (extractOrderFromOMR_run this imagePath h fs)
    as (r & _ & [(_ & _ & _ & Hx)|[(e & _ & _ & _ & _ & Hx)|(e & _ & _ & _ & He & Hx)]]);
    rewrite Hx in Hrun; simplify_eq; simpl in Hd; simplify_eq.
  done.
Qed.

End Extraction.

(** ** The aggregate confidence is a percentage *)

Section Aggregate.

Lemma confidence_sum_bounds marks :
  Forall (λ mk, 0 <= confidence mk ∧ confidence mk <= 1)%Q marks →
  (0 <= foldr (λ mk acc, confidence mk + acc) 0 marks)%Q ∧
  (foldr (λ mk acc, confidence mk + acc) 0 marks
   <= inject_Z (Z.of_nat (length marks)))%Q.
Proof.
  induction 1 as [|mk marks [Hlo Hhi] _ [IHlo IHhi]]; [done|].
  cbn [foldr length]. split.
  - apply Qle_trans with (0 + 0)%Q; [done|]. by apply Qplus_le_compat.
  - rewrite Nat2Z.inj_succ, <- Z.add_1_l, inject_Z_plus.
    by apply Qplus_le_compat.
Qed.

(** With per-mark confidences in [0,1], the aggregate of a non-empty list
    lies between 0 and 100. *)
Lemma aggregate_confidence_bounds marks :
  marks ≠ [] →
  Forall (λ mk, 0 <= confidence mk ∧ confidence mk <= 1)%Q marks →
  (0 <= aggregate_confidence marks ∧ aggregate_confidence marks <= 100)%Q.
Proof.
  intros Hne Hall. destruct (confidence_sum_bounds marks Hall) as [Hlo Hhi].
  assert (0 < inject_Z (Z.of_nat (length marks)))%Q as Hpos.
  { change 0%Q with (inject_Z 0). rewrite <- Zlt_Qlt.
    destruct marks; [done|]. simpl. lia. }
  unfold aggregate_confidence. split.
  - apply Qle_shift_div_l; [done|]. rewrite Qmult_0_l.
    apply Qmult_le_0_compat; [done|exact Hlo].
  - apply Qle_shift_div_r; [done|]. by apply Qmult_le_l.
Qed.

(** The aggregate of the documented sample marks is the documented 85. *)
Lemma documented_aggregate : (aggregate_confidence documented_marks == 85)%Q.
Proof. reflexivity. Qed.

End Aggregate.

(** * The claims *)

Section Claims.
Import PythonOMRProcessor.

(** C1, as first stated, fails: with two selection marks for "egg", the
    marked one first and the unmarked one last, the call succeeds, a
    marked selection mark for "egg" is in the list, and no order line for
    "egg" is returned. *)
Lemma selectivity_any_mark_fails :
  let h := sample_host "{...}" (sample_data overwritten_marks 55) in
  extractOrderFromOMR (constructor h) sample_path h sample_files
  = (sample_files, inr (built_order (sample_data overwritten_marks 55)))
  ∧ some_marked_selection overwritten_marks "egg"
  ∧ ¬ has_line (built_order (sample_data overwritten_marks 55)) "egg".
Proof.
  split_and!.
  - vm_compute. reflexivity.
  - exists (mkMark "egg" "selection" true (9 # 10)).
    split_and!; [apply list_elem_of_here | done..].
  - intros (line & Hin & _). vm_compute in Hin. by apply elem_of_nil in Hin.
Qed.

(** C1 (amended): for every successful call of [extractOrderFromOMR]
    on marks whose item names are not inherited property names, an
    order line for item X is returned if and only if the last mark of the
    marks list with item X and type "selection" has [isMarked = true];
    when no two marks share item and type, this is the case if and only
    if some mark has item X, type "selection" and [isMarked = true]. *)
Theorem order_extraction_selectivity this imagePath h fs fs' o :
  extractOrderFromOMR this imagePath h fs = (fs', inr o) →
  ord_success o = true →
  ∃ d, omrData o = Some d ∧
    (plain_items (marks d) →
     (∀ X, has_line o X ↔ last_selection_marked (marks d) X) ∧
     (unique_marks (marks d) →
      ∀ X, has_line o X ↔ some_marked_selection (marks d) X)).
Proof.
  intros Hrun Hok.
  destruct (successful_run _ _ _ _ _ _ Hrun Hok) as (d & Hd & _ & Hitems).
  exists d. split; [done|]. intros _.
  assert (∀ X, has_line o X ↔ last_selection_marked (marks d) X) as Hlast.
  { intros X. unfold has_line. rewrite Hitems. apply has_line_last_selection. }
  split; [done|]. intros Hnd X. by rewrite Hlast, last_selection_unique.
Qed.

Lemma order_extraction_selectivity_witness :
  let h := sample_host "{...}" (sample_data plain_marks 55) in
  let o := built_order (sample_data plain_marks 55) in
  extractOrderFromOMR (constructor h) sample_path h sample_files
  = (sample_files, inr o) ∧
  ord_success o = true ∧
  plain_items plain_marks ∧
  unique_marks plain_marks ∧
  (has_line o "egg" ↔ last_selection_marked plain_marks "egg") ∧
  (has_line o "egg" ↔ some_marked_selection plain_marks "egg") ∧
  has_line o "egg".
Proof.
  intros h o.
  assert (extractOrderFromOMR (constructor h) sample_path h sample_files
          = (sample_files, inr o)) as Hrun by (vm_compute; reflexivity).
  assert (plain_items plain_marks) as Hplain by plain_items_by_evaluation.
  assert (unique_marks plain_marks) as Hnd.
  { unfold unique_marks. apply NoDup_ListNoDup.
    repeat (constructor; [simpl; intuition discriminate|]). constructor. }
  assert (has_line o "egg") as Hline.
  { exists (mkOrderLine "egg" 1 (8 # 10)). split; [|reflexivity].
    vm_compute. apply list_elem_of_here. }
  destruct (order_extraction_selectivity _ _ _ _ _ _ Hrun eq_refl)
    as (d & Hd & Hiff).
  change (Some (sample_data plain_marks 55) = Some d) in Hd.
  injection Hd as <-.
  destruct (Hiff Hplain) as [Hlast Hsome].
  split_and!; [exact Hrun | reflexivity | exact Hplain | exact Hnd
              | exact (Hlast "egg") | exact (Hsome Hnd "egg") | exact Hline].
Defined.

(** C2: for marks whose item names are not inherited property names,
    every order line's confidence is the minimum of the item's
    selection-mark confidence and its quantity-mark confidence when a
    quantity mark for the item is present, and the minimum of the
    selection-mark confidence and 1.0, which is the selection-mark
    confidence itself when that is at most 1, when the item has no
    quantity mark. The item's mark of a type is the one the grouping
    keeps, the last in list order. *)
Theorem line_confidence_minimum this imagePath h fs fs' o line :
  extractOrderFromOMR this imagePath h fs = (fs', inr o) →
  line ∈ orderItems o →
  ∃ d, omrData o = Some d ∧ (plain_items (marks d) → ∃ sel,
    sel ∈ marks d ∧ item sel = item_name line ∧ type sel = "selection" ∧
    lastMark (marks d) (item_name line) "selection" = Some sel ∧
    (∀ q, lastMark (marks d) (item_name line) "quantity" = Some q →
       line_confidence line = Js.Math_min (confidence sel) (confidence q)) ∧
    (∀ q, unique_marks (marks d) → q ∈ marks d →
       item q = item_name line → type q = "quantity" →
       line_confidence line = Js.Math_min (confidence sel) (confidence q)) ∧
    ((∀ mk, mk ∈ marks d → ¬ (item mk = item_name line ∧ type mk = "quantity")) →
       line_confidence line = Js.Math_min (confidence sel) 1 ∧
       ((confidence sel <= 1)%Q → line_confidence line = confidence sel))).
Proof.
  intros Hrun Hin.
  destruct (line_run _ _ _ _ _ _ _ Hrun Hin) as (d & Hd & _ & Hline).
  apply order_line_Some in Hline as (_ & _ & sel & Hsel & _ & Hconf).
  exists d. split; [done|]. intros _.
  exists sel. destruct (lastMark_Some _ _ _ _ Hsel) as (Hsin & Hsi & Hst).
  split_and!; [done..| | |].
  - intros q Hq. by rewrite Hconf, Hq.
  - intros q Hnd Hqin Hqi Hqt. rewrite Hconf.
    by rewrite <- Hqi, <- Hqt, (lastMark_unique _ _ Hnd Hqin).
  - intros Hnone. apply lastMark_None in Hnone. rewrite Hnone in Hconf.
    split; [done|]. intros Hle. by rewrite Hconf, Math_min_l.
Qed.

Lemma line_confidence_minimum_witness :
  let h := sample_host "{...}" (sample_data plain_marks 55) in
  let o := built_order (sample_data plain_marks 55) in
  let line := mkOrderLine "egg" 1 (8 # 10) in
  extractOrderFromOMR (constructor h) sample_path h sample_files
  = (sample_files, inr o) ∧
  line ∈ orderItems o ∧
  plain_items plain_marks ∧
  ∃ sel,
    sel ∈ plain_marks ∧ item sel = item_name line ∧ type sel = "selection" ∧
    lastMark plain_marks (item_name line) "selection" = Some sel ∧
    (∀ q, lastMark plain_marks (item_name line) "quantity" = Some q →
       line_confidence line = Js.Math_min (confidence sel) (confidence q)) ∧
    (∀ q, unique_marks plain_marks → q ∈ plain_marks →
       item q = item_name line → type q = "quantity" →
       line_confidence line = Js.Math_min (confidence sel) (confidence q)) ∧
    ((∀ mk, mk ∈ plain_marks → ¬ (item mk = item_name line ∧ type mk = "quantity")) →
       line_confidence line = Js.Math_min (confidence sel) 1 ∧
       ((confidence sel <= 1)%Q → line_confidence line = confidence sel)).
Proof.
  intros h o line.
  assert (extractOrderFromOMR (constructor h) sample_path h sample_files
          = (sample_files, inr o)) as Hrun by (vm_compute; reflexivity).
  assert (line ∈ orderItems o) as Hin by (vm_compute; apply list_elem_of_here).
  assert (plain_items plain_marks) as Hplain by plain_items_by_evaluation.
  split; [exact Hrun|]. split; [exact Hin|]. split; [exact Hplain|].
  destruct (line_confidence_minimum _ _ _ _ _ _ _ Hrun Hin) as (d & Hd & Hsel).
  change (Some (sample_data plain_marks 55) = Some d) in Hd.
  injection Hd as <-. exact (Hsel Hplain).
Defined.

(** C3: every order line returned by [extractOrderFromOMR] has quantity
    exactly 1, whatever the item's quantity mark is; and two successful
    calls whose marks lists differ only in the [isMarked] flags of
    quantity marks return order lines with identical item names and
    quantities (the two lists of order lines are even equal). *)
Theorem quantity_always_one this imagePath h fs fs' o :
  extractOrderFromOMR this imagePath h fs = (fs', inr o) →
  (∀ line, line ∈ orderItems o → quantity line = 1%Z) ∧
  (∀ this2 imagePath2 h2 fs2 fs2' o2 d d2,
     extractOrderFromOMR this2 imagePath2 h2 fs2 = (fs2', inr o2) →
     omrData o = Some d → omrData o2 = Some d2 →
     Forall2 same_but_quantity_flag (marks d) (marks d2) →
     (λ line, (item_name line, quantity line)) <$> orderItems o
     = (λ line, (item_name line, quantity line)) <$> orderItems o2
     ∧ orderItems o = orderItems o2).
Proof.
  intros Hrun. split.
  - intros line Hin.
    destruct (line_run _ _ _ _ _ _ _ Hrun Hin) as (d & _ & _ & Hline).
    by apply order_line_Some in Hline as (_ & Hq & _).
  - intros this2 imagePath2 h2 fs2 fs2' o2 d d2 Hrun2 Hd Hd2 Hrel.
    assert (orderItems o = orderItems o2) as Heq; [|by rewrite Heq].
    destruct (data_run _ _ _ _ _ _ _ Hrun Hd) as (_ & _ & ->).
    destruct (data_run _ _ _ _ _ _ _ Hrun2 Hd2) as (_ & _ & ->).
    apply buildOrderItems_ext.
    + by apply same_but_quantity_flag_items.
    + intros X. by apply same_but_quantity_flag_order_line.
Qed.

Lemma quantity_always_one_witness :
  let h := sample_host "{...}" (sample_data plain_marks 55) in
  let h2 := sample_host "{...}" (sample_data plain_marks_flipped 55) in
  let o := built_order (sample_data plain_marks 55) in
  let o2 := built_order (sample_data plain_marks_flipped 55) in
  extractOrderFromOMR (constructor h) sample_path h sample_files
  = (sample_files, inr o) ∧
  extractOrderFromOMR (constructor h2) sample_path h2 sample_files
  = (sample_files, inr o2) ∧
  Forall2 same_but_quantity_flag plain_marks plain_marks_flipped ∧
  (∀ line, line ∈ orderItems o → quantity line = 1%Z) ∧
  (λ line, (item_name line, quantity line)) <$> orderItems o
  = (λ line, (item_name line, quantity line)) <$> orderItems o2.
Proof.
  intros h h2 o o2.
  assert (extractOrderFromOMR (constructor h) sample_path h sample_files
          = (sample_files, inr o)) as Hrun by (vm_compute; reflexivity).
  assert (extractOrderFromOMR (constructor h2) sample_path h2 sample_files
          = (sample_files, inr o2)) as Hrun2 by (vm_compute; reflexivity).
  assert (Forall2 same_but_quantity_flag plain_marks plain_marks_flipped) as Hrel.
  { repeat constructor; simpl; congruence. }
  destruct (quantity_always_one _ _ _ _ _ _ Hrun) as [Hone Htwo].
  split_and!; [exact Hrun | exact Hrun2 | exact Hrel | exact Hone |].
  exact (proj1 (Htwo _ _ _ _ _ _ _ _ Hrun2 eq_refl eq_refl Hrel)).
Defined.

(** C4, as first stated, fails: the first selection mark for "egg" has
    [isMarked = false], and "egg" is not left out of the order items,
    because a later selection mark for "egg" is marked. *)
Lemma unmarked_selection_not_omitted :
  let d := sample_data revived_marks 55 in
  let h := sample_host "{...}" d in
  extractOrderFromOMR (constructor h) sample_path h sample_files
  = (sample_files, inr (built_order d)) ∧
  (∃ mk, mk ∈ revived_marks ∧ item mk = "egg" ∧ type mk = "selection" ∧
     isMarked mk = false) ∧
  has_line (built_order d) "egg".
Proof.
  split_and!.
  - vm_compute. reflexivity.
  - exists (mkMark "egg" "selection" false (2 # 10)).
    split_and!; [apply list_elem_of_here | done..].
  - exists (mkOrderLine "egg" 1 (9 # 10)). split; [|reflexivity].
    vm_compute. apply list_elem_of_here.
Qed.

(** C4 (amended): for engine output of the contract's shape whose item
    names are not inherited property names, [extractOrderFromOMR] fails
    if and only if the upstream processing was unsuccessful: the wrapper
    result has [success = false], or the parsed engine data has
    [success = false]. After successful upstream processing the call
    succeeds whatever the marks are, and an item with no selection mark,
    or whose last selection mark is unmarked, is left out of
    [orderItems]. *)
Theorem extraction_fails_iff_upstream_failed this imagePath h fs :
  ∃ r o,
    processImage this imagePath h fs = (fs, inr r) ∧
    extractOrderFromOMR this imagePath h fs = (fs, inr o) ∧
    ((∀ d, res_data r = Some d → plain_items (marks d)) →
     (ord_success o = false
      ↔ res_success r = false ∨ ∃ d, res_data r = Some d ∧ data_success d = false) ∧
     (∀ d, res_success r = true → res_data r = Some d → data_success d = true →
        ord_success o = true ∧ omrData o = Some d ∧
        ∀ X,
          (∀ mk, mk ∈ marks d → ¬ (item mk = X ∧ type mk = "selection")) ∨
          (∃ sel, lastMark (marks d) X "selection" = Some sel ∧ isMarked sel = false) →
          ¬ has_line o X)).
Proof.
  destruct (extractOrderFromOMR_run this imagePath h fs)
    as (r & Hrun & [(Hs & Hd & _ & Hx)|[(d & Hs & Hd & _ & Hds & Hx)|(d & Hs & Hd & _ & Hds & Hx)]]);
    exists r; eexists; (split; [exact Hrun|]); (split; [exact Hx|]); intros _.
  - split; [by split; [left|]|]. intros d. by rewrite Hs.
  - split.
    + split; [|done]. intros _. right. by exists d.
    + intros d' _ Hd'. rewrite Hd in Hd'. injection Hd' as <-. by rewrite Hds.
  - split.
    + split; [done|]. intros [Hf|(d' & Hd' & Hf)]; [congruence|].
      rewrite Hd in Hd'. injection Hd' as <-. congruence.
    + intros d' _ Hd' _. rewrite Hd in Hd'. injection Hd' as <-.
      split_and!; [done..|]. intros X Hno. unfold has_line. simpl.
      rewrite has_line_last_selection. intros (sel & Hsel & Hm).
      destruct Hno as [Hnone|(sel' & Hsel' & Hm')].
      * apply lastMark_None in Hnone. congruence.
      * congruence.
Qed.

Lemma extraction_fails_iff_upstream_failed_witness :
  let d := sample_data plain_marks 55 in
  let h := sample_host "{...}" d in
  let r := {| res_success := true; res_error := None; res_data := Some d |} in
  let o := built_order d in
  processImage (constructor h) sample_path h sample_files = (sample_files, inr r) ∧
  extractOrderFromOMR (constructor h) sample_path h sample_files
  = (sample_files, inr o) ∧
  plain_items plain_marks ∧
  (∃ sel, lastMark plain_marks "isda" "selection" = Some sel ∧
     isMarked sel = false) ∧
  ord_success o = true ∧ ¬ has_line o "isda".
Proof.
  intros d h r o.
  assert (processImage (constructor h) sample_path h sample_files
          = (sample_files, inr r)) as Hp by (vm_compute; reflexivity).
  assert (extractOrderFromOMR (constructor h) sample_path h sample_files
          = (sample_files, inr o)) as Hrun by (vm_compute; reflexivity).
  assert (plain_items plain_marks) as Hplain by plain_items_by_evaluation.
  assert (∃ sel, lastMark plain_marks "isda" "selection" = Some sel ∧
            isMarked sel = false) as Hlast.
  { exists (mkMark "isda" "selection" false (2 # 10)).
    split; [vm_compute|]; reflexivity. }
  split_and!; [exact Hp | exact Hrun | exact Hplain | exact Hlast | reflexivity |].
  destruct (extraction_fails_iff_upstream_failed (constructor h) sample_path h
              sample_files) as (r' & o' & Hp' & Hrun' & Hthen).
  rewrite Hp in Hp'. injection Hp' as <-.
  rewrite Hrun in Hrun'. injection Hrun' as <-.
  assert (∀ d', res_data r = Some d' → plain_items (marks d')) as Hall.
  { intros d' Hd'. injection Hd' as <-. exact Hplain. }
  destruct (Hthen Hall) as [_ Hok].
  destruct (Hok d eq_refl eq_refl eq_refl) as (_ & _ & Hout).
  exact (Hout "isda" (or_intror Hlast)).
Defined.

(** C5: whenever [extractOrderFromOMR] reports a failure, the returned
    object has [success = false], [orderItems] equal to the empty list
    and [omrData] equal to [null]. *)
Theorem failure_returns_no_order_data this imagePath h fs fs' o :
  extractOrderFromOMR this imagePath h fs = (fs', inr o) →
  ord_success o = false →
  orderItems o = [] ∧ omrData o = None.
Proof.
  intros Hrun Hfail.
  destruct (extractOrderFromOMR_run this imagePath h fs)
    as (r & _ & [(_ & _ & _ & Hx)|[(d & _ & _ & _ & _ & Hx)|(d & _ & _ & _ & _ & Hx)]]);
    rewrite Hx in Hrun; by simplify_eq.
Qed.

Lemma failure_returns_no_order_data_witness :
  let h := sample_host "{...}" failed_data in
  let o := failed_order "OMR processing failed" in
  extractOrderFromOMR (constructor h) sample_path h sample_files
  = (sample_files, inr o) ∧
  ord_success o = false ∧
  orderItems o = [] ∧ omrData o = None.
Proof.
  intros h o.
  assert (extractOrderFromOMR (constructor h) sample_path h sample_files
          = (sample_files, inr o)) as Hrun by (vm_compute; reflexivity).
  split; [exact Hrun|]. split; [reflexivity|].
  exact (failure_returns_no_order_data _ _ _ _ _ _ Hrun eq_refl).
Defined.

(** C6: for every input path, [processImage] returns a result object and
    never throws; on a path that does not exist the result has
    [success = false] and a non-empty [error] string. *)
Theorem processImage_never_throws this imagePath h fs :
  ∃ r, processImage this imagePath h fs = (fs, inr r) ∧
    (imagePath ∉ fs →
       res_success r = false ∧ res_data r = None ∧
       ∃ msg, res_error r = Some msg ∧ msg ≠ "").
Proof.
  destruct (processImage_run this imagePath h fs) as (r & Hrun & Hshape & Hmiss).
  exists r. split; [done|]. intros Hnin.
  destruct (Hmiss Hnin) as [Hs He]. split; [done|].
  split; [destruct Hshape as [(? & _)|(_ & ? & _)]; congruence|].
  eexists. split; [exact He|]. apply ENOENT_nonempty.
Qed.

Lemma processImage_never_throws_witness :
  let h := sample_host "{...}" (sample_data plain_marks 55) in
  (sample_path ∉ (∅ : gset string)) ∧
  ∃ r, processImage (constructor h) sample_path h ∅ = (∅, inr r) ∧
    res_success r = false ∧ res_data r = None ∧
    ∃ msg, res_error r = Some msg ∧ msg ≠ "".
Proof.
  intros h.
  assert ((sample_path ∉ (∅ : gset string))) as Hnin by apply not_elem_of_empty.
  split; [exact Hnin|].
  destruct (processImage_never_throws (constructor h) sample_path h ∅)
    as (r & Hrun & Hmiss).
  exists r. split; [exact Hrun|]. exact (Hmiss Hnin).
Defined.

(** The route hands the aggregate confidence of the engine to the
    client as it is. *)
Lemma post_process_confidence processor imagePath formType h fs d :
  processImage processor imagePath h fs
  = (fs, inr {| res_success := true; res_error := None; res_data := Some d |}) →
  ∃ resp data,
    OmrRoutes.post_process processor true
      (OmrRoutes.mkRequest (Some imagePath) formType) h fs = (fs, inr resp) ∧
    OmrRoutes.body_data resp = Some data ∧
    OmrRoutes.pd_confidence data = data_confidence d.
Proof.
  intros Hrun. unfold OmrRoutes.post_process. simpl. unfold try_catch at 1.
  unfold mbind at 1, M_bind at 1. unfold mbind at 1, M_bind at 1.
  rewrite Hrun. simpl. run_monad. by eexists _, _.
Qed.

(** [showResults] multiplies the confidence it is given by 100. *)
Lemma confidencePercent_scales data :
  (1 <= OmrRoutes.pd_confidence data)%Q →
  (100 <= Frontend.confidencePercent data)%Z.
Proof.
  intros Hle. unfold Frontend.confidencePercent, Js.Math_round.
  change 100%Z with (Qfloor 100). apply Qfloor_resp_le.
  apply Qle_trans with (OmrRoutes.pd_confidence data * 100)%Q.
  - by apply (Qmult_le_compat_r 1 (OmrRoutes.pd_confidence data) 100).
  - apply Qle_trans with (OmrRoutes.pd_confidence data * 100 + 0)%Q.
    + apply Qle_lteq. right. symmetry. apply Qplus_0_r.
    + by apply Qplus_le_r.
Qed.

(** C7 fails on the code: the sample response of the API documentation
    carries the aggregate confidence 85, on the 0 to 100 scale, next to
    a per-mark confidence of 0.85; the route passes the aggregate on
    unchanged, and [showResults] rescales it as a fraction and shows
    8500%. *)
Theorem showResults_rescales_percentage :
  let d := sample_data documented_marks 85 in
  let h := sample_host "{...}" d in
  ∃ resp data,
    OmrRoutes.post_process (constructor h) true
      (OmrRoutes.mkRequest (Some sample_path) (Some "menu_order")) h sample_files
    = (sample_files, inr resp) ∧
    OmrRoutes.body_data resp = Some data ∧
    OmrRoutes.pd_confidence data = 85%Q ∧
    Frontend.confidencePercent data = 8500%Z ∧
    Frontend.confidence_line data = "<p><strong>Confidence:</strong> 8500%</p>".
Proof.
  intros d h.
  destruct (post_process_confidence (constructor h) sample_path
              (Some "menu_order") h sample_files d) as (resp & data & Hresp & Hdata & Hc).
  { vm_compute. reflexivity. }
  exists resp, data. split; [exact Hresp|]. split; [exact Hdata|].
  unfold Frontend.confidence_line, Frontend.confidencePercent. rewrite Hc.
  split_and!; [done | by vm_compute..].
Qed.

(** When the engine itself reports a failure in otherwise well-formed
    output, [processImage] succeeds, and the [/api/omr/process] handler
    answers with [success = true] and keeps the file; only
    [extractOrderFromOMR] looks at the engine's own [success] field. *)
Lemma post_process_engine_failure processor imagePath formType h fs d :
  processImage processor imagePath h fs
  = (fs, inr {| res_success := true; res_error := None; res_data := Some d |}) →
  data_success d = false →
  ∃ resp,
    OmrRoutes.post_process processor true
      (OmrRoutes.mkRequest (Some imagePath) formType) h fs = (fs, inr resp) ∧
    OmrRoutes.body_success resp = true ∧ OmrRoutes.status resp = 200%Z.
Proof.
  intros Hrun _. unfold OmrRoutes.post_process. simpl. unfold try_catch at 1.
  unfold mbind at 1, M_bind at 1. unfold mbind at 1, M_bind at 1.
  rewrite Hrun. simpl. run_monad. by eexists.
Qed.

(** C8 fails on the code. The engine reports a failure of its own in
    its output ([success = false] with an error text) and exits with
    code 0. [processImage] hands the output on as a success, and
    [extractOrderFromOMR] looks at the engine's own [success] field and
    returns a failure; the [/api/omr/process] handler does not look at
    it: it answers with status 200 and [success = true] and keeps the
    uploaded file. *)
Theorem engine_failure_answered_as_success :
  let h := sample_host "{...}" failed_data in
  let processor := constructor h in
  data_success failed_data = false ∧
  processImage processor sample_path h sample_files
  = (sample_files,
     inr {| res_success := true; res_error := None;
            res_data := Some failed_data |}) ∧
  extractOrderFromOMR processor sample_path h sample_files
  = (sample_files, inr (failed_order "OMR processing failed")) ∧
  ∃ resp,
    OmrRoutes.post_process processor true
      (OmrRoutes.mkRequest (Some sample_path) (Some "menu_order")) h sample_files
    = (sample_files, inr resp) ∧
    sample_path ∈ sample_files ∧
    OmrRoutes.body_success resp = true ∧
    OmrRoutes.status resp = 200%Z.
Proof.
  intros h processor.
  assert (processImage processor sample_path h sample_files
          = (sample_files,
             inr {| res_success := true; res_error := None;
                    res_data := Some failed_data |})) as Hp
    by (vm_compute; reflexivity).
  split_and!; [reflexivity | exact Hp | by vm_compute |].
  destruct (post_process_engine_failure processor sample_path
              (Some "menu_order") h sample_files failed_data Hp eq_refl)
    as (resp & Hresp & Hok & Hstatus).
  exists resp. split_and!; [exact Hresp | | exact Hok | exact Hstatus].
  by apply elem_of_singleton.
Qed.

(** C9, as first stated, fails: the first selection mark for "egg" is
    followed by another one, yet it has an effect on the output. With it
    the line for "egg" comes first, without it the line for "isda". *)
Lemma earlier_duplicate_fixes_position :
  let d := sample_data repeated_marks 80 in
  let d' := sample_data (tail repeated_marks) 80 in
  let h := sample_host "{...}" d in
  let h' := sample_host "{...}" d' in
  extractOrderFromOMR (constructor h) sample_path h sample_files
  = (sample_files, inr (built_order d)) ∧
  extractOrderFromOMR (constructor h') sample_path h' sample_files
  = (sample_files, inr (built_order d')) ∧
  (∃ mk mk', repeated_marks = mk :: tail repeated_marks ∧
     mk' ∈ tail repeated_marks ∧ item mk' = item mk ∧ type mk' = type mk) ∧
  item_name <$> orderItems (built_order d) = ["egg"; "isda"] ∧
  item_name <$> orderItems (built_order d') = ["isda"; "egg"] ∧
  orderItems (built_order d) ≠ orderItems (built_order d').
Proof.
  split_and!.
  - vm_compute. reflexivity.
  - vm_compute. reflexivity.
  - exists (mkMark "egg" "selection" true (9 # 10)),
           (mkMark "egg" "selection" true (7 # 10)).
    split_and!; [done | | done..].
    apply list_elem_of_further, list_elem_of_here.
  - vm_compute. reflexivity.
  - vm_compute. reflexivity.
  - vm_compute. discriminate.
Qed.

(** C9 (amended): when the marks list, whose item names are not
    inherited property names, holds a mark that is followed by another
    mark with the same item and the same type, [extractOrderFromOMR]
    takes the selection decision and the confidence of every line from
    the last marks of the item. The earlier duplicate is overwritten by
    the grouping step: whatever [isMarked] flag and confidence it
    carries, the returned order items are the same, and without it the
    same order lines are returned, in a possibly different order. *)
Theorem duplicate_marks_last_wins this imagePath h fs fs' o d l1 mk l2 mk' :
  extractOrderFromOMR this imagePath h fs = (fs', inr o) →
  omrData o = Some d →
  plain_items (marks d) →
  marks d = l1 ++ mk :: l2 →
  mk' ∈ l2 → item mk' = item mk → type mk' = type mk →
  (∀ X ty, lastMark (marks d) X ty = lastMark (l1 ++ l2) X ty) ∧
  (∀ line, line ∈ orderItems o →
     order_line (l1 ++ l2) (item_name line) = Some line) ∧
  (∀ mk2, item mk2 = item mk → type mk2 = type mk →
     orderItems o = buildOrderItems (l1 ++ mk2 :: l2)) ∧
  orderItems o ≡ₚ buildOrderItems (l1 ++ l2).
Proof.
  intros Hrun Hd _ Hmarks Hin Hitem Htype.
  destruct (data_run _ _ _ _ _ _ _ Hrun Hd) as (_ & _ & Hitems).
  assert (∀ mk2, item mk2 = item mk → type mk2 = type mk →
            ∀ X ty, lastMark (l1 ++ mk2 :: l2) X ty = lastMark (l1 ++ l2) X ty)
    as Hlast.
  { intros mk2 Hi2 Ht2 X ty. unfold lastMark. rewrite !filter_app, !last_app.
    destruct (decide (item mk2 = X ∧ type mk2 = ty)) as [[HX Hty]|Hn].
    - rewrite filter_cons_True by done.
      assert (mk' ∈ filter (λ mark, item mark = X ∧ type mark = ty) l2) as Hf.
      { apply list_elem_of_filter. split; [|done]. split; congruence. }
      rewrite last_cons.
      destruct (last (filter _ l2)) eqn:Hl; [done|].
      apply last_None in Hl. rewrite Hl in Hf. by apply elem_of_nil in Hf.
    - by rewrite filter_cons_False. }
  assert (∀ mk2, item mk2 = item mk → type mk2 = type mk →
            ∀ X, order_line (l1 ++ mk2 :: l2) X = order_line (l1 ++ l2) X)
    as Hline.
  { intros mk2 Hi2 Ht2 X. unfold order_line. by rewrite !(Hlast mk2). }
  rewrite Hitems, Hmarks. split_and!.
  - by apply Hlast.
  - intros line Hl. apply elem_of_buildOrderItems in Hl as (X & _ & Hl).
    destruct (order_line_Some _ _ _ Hl) as (-> & _).
    by rewrite <- (Hline mk).
  - intros mk2 Hi2 Ht2. apply buildOrderItems_ext.
    + by rewrite !fmap_app, !fmap_cons, Hi2.
    + intros X. by rewrite (Hline mk), (Hline mk2).
  - apply buildOrderItems_perm.
    + intros X. rewrite !fmap_app, fmap_cons, !elem_of_app, elem_of_cons.
      split; [|tauto]. intros [?|[->|?]]; [tauto| |tauto].
      right. apply list_elem_of_fmap. exists mk'. by rewrite Hitem.
    + intros X. by apply Hline.
Qed.

Lemma duplicate_marks_last_wins_witness :
  let d := sample_data revived_marks 55 in
  let h := sample_host "{...}" d in
  let o := built_order d in
  let mk := mkMark "egg" "selection" false (2 # 10) in
  let mk' := mkMark "egg" "selection" true (9 # 10) in
  extractOrderFromOMR (constructor h) sample_path h sample_files
  = (sample_files, inr o) ∧
  plain_items (marks d) ∧
  marks d = [] ++ mk :: [mk'] ∧ mk' ∈ [mk'] ∧
  orderItems o = [mkOrderLine "egg" 1 (9 # 10)] ∧
  (∀ X ty, lastMark (marks d) X ty = lastMark ([] ++ [mk']) X ty) ∧
  (∀ line, line ∈ orderItems o →
     order_line ([] ++ [mk']) (item_name line) = Some line) ∧
  (∀ mk2, item mk2 = item mk → type mk2 = type mk →
     orderItems o = buildOrderItems ([] ++ mk2 :: [mk'])) ∧
  orderItems o ≡ₚ buildOrderItems ([] ++ [mk']).
Proof.
  intros d h o mk mk'.
  assert (extractOrderFromOMR (constructor h) sample_path h sample_files
          = (sample_files, inr o)) as Hrun by (vm_compute; reflexivity).
  assert (plain_items (marks d)) as Hplain by plain_items_by_evaluation.
  assert (mk' ∈ [mk']) as Hin by apply list_elem_of_here.
  assert (orderItems o = [mkOrderLine "egg" 1 (9 # 10)]) as Hline
    by (vm_compute; reflexivity).
  split_and!; [exact Hrun | exact Hplain | reflexivity | exact Hin | exact Hline | ..];
    apply (duplicate_marks_last_wins _ _ _ _ _ _ d [] mk [mk'] mk'
             Hrun eq_refl Hplain eq_refl Hin eq_refl eq_refl).
Defined.

(** C10: whenever [extractOrderFromOMR] returns [success = false], its
    [error] field is a non-empty string; when the upstream result carries
    no error message, it is the fallback 'OMR processing failed'. *)
Theorem failure_error_nonempty this imagePath h fs fs' o :
  extractOrderFromOMR this imagePath h fs = (fs', inr o) →
  ord_success o = false →
  ∃ msg, ord_error o = Some msg ∧ msg ≠ "" ∧
    ∀ r, processImage this imagePath h fs = (fs, inr r) →
         Js.truthy (res_error r) = false → msg = "OMR processing failed".
Proof.
  intros Hrun Hfail.
  destruct (extractOrderFromOMR_run this imagePath h fs)
    as (r & Hp & [(_ & _ & _ & Hx)|[(d & _ & _ & _ & _ & Hx)|(d & _ & _ & _ & _ & Hx)]]);
    rewrite Hx in Hrun; simplify_eq; eexists; (split; [reflexivity|]).
  - split; [by apply or_else_nonempty|].
    intros r' Hp' Hfalsy. rewrite Hp in Hp'. simplify_eq. by apply or_else_falsy.
  - done.
Qed.

Lemma failure_error_nonempty_witness :
  let h := sample_host "{...}" failed_data in
  let o := failed_order "OMR processing failed" in
  extractOrderFromOMR (constructor h) sample_path h sample_files
  = (sample_files, inr o) ∧
  ord_success o = false ∧
  ∃ msg, ord_error o = Some msg ∧ msg ≠ "" ∧
    ∀ r, processImage (constructor h) sample_path h sample_files
         = (sample_files, inr r) →
         Js.truthy (res_error r) = false → msg = "OMR processing failed".
Proof.
  intros h o.
  assert (extractOrderFromOMR (constructor h) sample_path h sample_files
          = (sample_files, inr o)) as Hrun by (vm_compute; reflexivity).
  split; [exact Hrun|]. split; [reflexivity|].
  exact (failure_error_nonempty _ _ _ _ _ _ Hrun eq_refl).
Defined.

End Claims.

(** * Further properties of the service layer *)

(** ** The wrapper by cause of failure *)

Section Wrapper.
Import PythonOMRProcessor.

Lemma exit_ok_close code out err :
  exit_ok (ProcClose code out err) = true ↔ code = Some 0%Z.
Proof.
  destruct code as [[| |]|]; simpl; split; intros H; try done; by simplify_eq.
Qed.

(** X1: [processImage] reports success exactly when the image exists, the
    Python process closes with exit code 0 and its output parses; the
    returned data are then the parsed output. *)
Theorem processImage_success_iff this imagePath h fs r :
  processImage this imagePath h fs = (fs, inr r) →
  res_success r = true
  ↔ imagePath ∈ fs ∧
    ∃ out err d,
      script_command this h imagePath = ProcClose (Some 0%Z) out err ∧
      JSON_parse h out = inr d ∧ res_data r = Some d.
Proof.
  unfold processImage, runPythonCommand, fs_access, script_command. run_monad.
  destruct (decide (imagePath ∈ fs)) as [Hin|Hnin].
  - destruct (spawn h _ _) as [perr|code out err].
    + intros [= <-]. simpl. split; [done|]. by intros (_ & ? & ? & ? & ? & _).
    + destruct (decide (code = Some 0%Z)) as [->|Hcode].
      * destruct (JSON_parse h out) as [jerr|d] eqn:Hparse.
        -- intros [= <-]. simpl. split; [done|].
           intros (_ & out' & err' & d' & Heq & Hp & _).
           injection Heq as <- <-. congruence.
        -- intros [= <-]. simpl. split; [|done]. intros _. split; [done|].
           by exists out, err, d.
      * intros [= <-]. simpl. split; [done|].
        intros (_ & out' & err' & d' & Heq & _). simplify_eq.
  - intros [= <-]. simpl. split; [done|]. by intros [? _].
Qed.

Lemma processImage_success_iff_witness :
  let d := sample_data plain_marks 55 in
  let h := sample_host "{...}" d in
  let r := {| res_success := true; res_error := None; res_data := Some d |} in
  processImage (constructor h) sample_path h sample_files = (sample_files, inr r) ∧
  (res_success r = true
   ↔ sample_path ∈ sample_files ∧
     ∃ out err d',
       script_command (constructor h) h sample_path = ProcClose (Some 0%Z) out err ∧
       JSON_parse h out = inr d' ∧ res_data r = Some d').
Proof.
  intros d h r.
  assert (processImage (constructor h) sample_path h sample_files
          = (sample_files, inr r)) as Hrun by (vm_compute; reflexivity).
  split; [exact Hrun|].
  exact (processImage_success_iff _ _ _ _ _ Hrun).
Defined.

(** X2: a failure of [processImage] names its cause. A missing image
    gives the ENOENT text with the path, whatever the Python process
    would do; a spawn error gives that error's text; an exit code other
    than 0 gives 'Python process exited with code N: ' followed by the
    collected stderr, whatever was printed on stdout; output that does
    not parse gives the parser's text. *)
Theorem processImage_failure_cause this imagePath h fs :
  (imagePath ∉ fs →
   processImage this imagePath h fs
   = (fs, inr (failed_image (Js.message (ENOENT "access" imagePath))))) ∧
  (imagePath ∈ fs →
   (∀ e, script_command this h imagePath = ProcError e →
      processImage this imagePath h fs
      = (fs, inr (failed_image (Js.message e)))) ∧
   (∀ code out err,
      script_command this h imagePath = ProcClose code out err →
      code ≠ Some 0%Z →
      processImage this imagePath h fs
      = (fs, inr (failed_image
                    ("Python process exited with code " +:+ show_code code
                       +:+ ": " +:+ err)))) ∧
   (∀ out err e,
      script_command this h imagePath = ProcClose (Some 0%Z) out err →
      JSON_parse h out = inl e →
      processImage this imagePath h fs
      = (fs, inr (failed_image (Js.message e))))).
Proof.
  unfold processImage, runPythonCommand, fs_access, script_command. run_monad.
  split.
  - intros Hnin. by rewrite decide_False.
  - intros Hin. rewrite decide_True by done. split_and!.
    + by intros e ->.
    + intros code out err -> Hcode. by rewrite decide_False.
    + intros out err e -> Hparse. rewrite decide_True by done. by rewrite Hparse.
Qed.

Lemma processImage_failure_cause_witness :
  let h := crashing_host in
  sample_path ∈ sample_files ∧
  script_command (constructor h) h sample_path = ProcClose (Some 1%Z) "" "cv2.error" ∧
  processImage (constructor h) sample_path h sample_files
  = (sample_files,
     inr (failed_image "Python process exited with code 1: cv2.error")).
Proof.
  intros h.
  assert (sample_path ∈ sample_files) as Hin by (by apply elem_of_singleton).
  split; [exact Hin|]. split; [reflexivity|].
  exact (proj1 (proj2 (proj2 (processImage_failure_cause (constructor h)
                                sample_path h sample_files) Hin))
           (Some 1%Z) "" "cv2.error" eq_refl ltac:(discriminate)).
Defined.

End Wrapper.

(** ** Setting up the Python environment *)

Section Setup.
Import PythonOMRProcessor.

Lemma runPythonCommand_run this args h fs :
  runPythonCommand this args h fs
  = (fs, match spawn h (pythonExecutable this) args with
         | ProcError e => inl e
         | ProcClose code out err =>
             if decide (code = Some 0%Z) then inr out
             else inl (Js.mkError ("Python process exited with code "
                         +:+ show_code code +:+ ": " +:+ err))
         end).
Proof.
  unfold runPythonCommand. run_monad.
  destruct (spawn h _ _) as [e|code out err]; [done|]. by case_decide.
Qed.

Lemma checkPythonEnvironment_run this h fs :
  checkPythonEnvironment this h fs = (fs, inr (exit_ok (version_command this h))).
Proof.
  unfold checkPythonEnvironment, version_command. unfold try_catch, mbind, M_bind.
  rewrite runPythonCommand_run.
  destruct (spawn h _ _) as [e|code out err]; [done|].
  case_decide as Hc; [by subst|].
  unfold mret, M_ret. f_equal. f_equal. symmetry.
  destruct (exit_ok _) eqn:Hok; [|done]. by apply exit_ok_close in Hok.
Qed.

Lemma installPythonDependencies_run this h fs :
  installPythonDependencies this h fs = (fs, inr (exit_ok (pip_command this h))).
Proof.
  unfold installPythonDependencies, runCommand, pip_command. run_monad.
  destruct (spawn h _ _) as [e|code out err]; [done|].
  case_decide as Hc; [by subst|].
  f_equal. f_equal. symmetry.
  destruct (exit_ok _) eqn:Hok; [|done]. by apply exit_ok_close in Hok.
Qed.

(** X3: [initialize] resolves with [true] exactly when both the version
    check and the pip command close with exit code 0. When the version
    check fails it rejects with 'Python environment not available',
    whatever the pip command would do; when only the pip command fails
    it rejects with 'Failed to install Python dependencies'. *)
Theorem initialize_outcome this h fs :
  (initialize this h fs).2
  = if exit_ok (version_command this h) then
      if exit_ok (pip_command this h) then inr true
      else inl (Js.mkError "Failed to install Python dependencies")
    else inl (Js.mkError "Python environment not available").
Proof.
  unfold initialize. unfold mbind at 1, M_bind at 1.
  rewrite checkPythonEnvironment_run.
  destruct (exit_ok (version_command this h)); [|done]. simpl.
  unfold mbind at 1, M_bind at 1. rewrite installPythonDependencies_run.
  by destruct (exit_ok (pip_command this h)).
Qed.




End Setup.

(** ** More on the order extractor *)

Section ExtractionMore.
Import PythonOMRProcessor.

Lemma order_line_selected marks X :
  is_Some (order_line marks X) ↔ selected marks X = true.
Proof.
  unfold order_line, selected.
  destruct (lastMark marks X "selection") as [sel|]; [|by rewrite is_Some_alt].
  destruct (isMarked sel); rewrite is_Some_alt; done.
Qed.

Lemma names_of_lines marks ks :
  item_name <$> omap (order_line marks) ks = List.filter (selected marks) ks.
Proof.
  induction ks as [|X ks IH]; [done|].
  cbn [omap list_omap List.filter].
  destruct (order_line marks X) as [line|] eqn:Hline.
  - assert (selected marks X = true) as -> by (by apply order_line_selected).
    rewrite fmap_cons, IH. by apply order_line_Some in Hline as (-> & _).
  - destruct (selected marks X) eqn:Hsel; [|done].
    apply order_line_selected in Hsel as [? ?]. congruence.
Qed.

Lemma NoDup_filter_bool {A} (f : A → bool) (l : list A) :
  NoDup l → NoDup (List.filter f l).
Proof.
  induction 1 as [|x l Hx _ IH]; simpl; [constructor|].
  destruct (f x); [|done]. constructor; [|done].
  rewrite list_elem_of_In, filter_In, <- list_elem_of_In. tauto.
Qed.

(** X5: the order items never hold two lines for the same item. *)
Theorem one_line_per_item this imagePath h fs fs' o :
  extractOrderFromOMR this imagePath h fs = (fs', inr o) →
  NoDup (item_name <$> orderItems o).
Proof.
  intros Hrun.
  destruct (extractOrderFromOMR_run this imagePath h fs)
    as (r & _ & [(_ & _ & _ & Hx)|[(d & _ & _ & _ & _ & Hx)|(d & _ & _ & _ & _ & Hx)]]);
    rewrite Hx in Hrun; simplify_eq; simpl; [apply NoDup_nil_2..|].
  rewrite buildOrderItems_order_line, names_of_lines.
  apply NoDup_filter_bool. rewrite keys_Object_entries_perm.
  apply NoDup_keys_groupMarks.
Qed.

Lemma one_line_per_item_witness :
  let d := sample_data repeated_marks 80 in
  let h := sample_host "{...}" d in
  extractOrderFromOMR (constructor h) sample_path h sample_files
  = (sample_files, inr (built_order d)) ∧
  NoDup (item_name <$> orderItems (built_order d)).
Proof.
  intros d h.
  assert (extractOrderFromOMR (constructor h) sample_path h sample_files
          = (sample_files, inr (built_order d))) as Hrun
    by (vm_compute; reflexivity).
  split; [exact Hrun|]. exact (one_line_per_item _ _ _ _ _ _ Hrun).
Defined.

Lemma Object_entries_named {V} (o : list (string * V)) :
  Forall (λ e, Js.array_index e.1 = None) o → Js.Object_entries o = o.
Proof.
  intros Hall. unfold Js.Object_entries.
  assert (omap Js.indexed o = [] ∧ List.filter Js.named o = o) as [-> ->];
    [|done].
  induction Hall as [|e o He _ [IH1 IH2]]; [done|].
  cbn [omap list_omap List.filter]. unfold Js.indexed at 1, Js.named at 1.
  by rewrite He, IH1, IH2.
Qed.

(** X6: when no item name is an array index or an inherited property
    name, as for the names on the form, the lines come in the order in
    which their items first occur in the marks list: the item names of
    the lines are the first occurrences of the item names, restricted to
    the items whose last selection mark is marked. *)
Theorem lines_follow_first_occurrence this imagePath h fs fs' o d :
  extractOrderFromOMR this imagePath h fs = (fs', inr o) →
  omrData o = Some d →
  plain_items (marks d) →
  Forall (λ mk, Js.array_index (item mk) = None) (marks d) →
  item_name <$> orderItems o
  = List.filter (selected (marks d)) (first_seen (item <$> marks d)).
Proof.
  intros Hrun Hd _ Hnamed.
  destruct (data_run _ _ _ _ _ _ _ Hrun Hd) as (_ & _ & ->).
  rewrite buildOrderItems_order_line, names_of_lines.
  rewrite Object_entries_named; [by rewrite keys_groupMarks|].
  apply Forall_forall. intros [k group] Hin.
  assert (k ∈ item <$> marks d) as Hk.
  { apply elem_of_keys_groupMarks, list_elem_of_fmap. by exists (k, group). }
  apply list_elem_of_fmap in Hk as (mk & -> & Hmk).
  by apply (proj1 (Forall_forall _ _) Hnamed).
Qed.

Lemma lines_follow_first_occurrence_witness :
  let d := sample_data repeated_marks 80 in
  let h := sample_host "{...}" d in
  extractOrderFromOMR (constructor h) sample_path h sample_files
  = (sample_files, inr (built_order d)) ∧
  plain_items (marks d) ∧
  Forall (λ mk, Js.array_index (item mk) = None) (marks d) ∧
  item_name <$> orderItems (built_order d)
  = List.filter (selected (marks d)) (first_seen (item <$> marks d)).
Proof.
  intros d h.
  assert (extractOrderFromOMR (constructor h) sample_path h sample_files
          = (sample_files, inr (built_order d))) as Hrun
    by (vm_compute; reflexivity).
  assert (plain_items (marks d)) as Hplain by plain_items_by_evaluation.
  assert (Forall (λ mk, Js.array_index (item mk) = None) (marks d)) as Hnamed
    by (repeat constructor).
  split; [exact Hrun|]. split; [exact Hplain|]. split; [exact Hnamed|].
  exact (lines_follow_first_occurrence _ _ _ _ _ _ _ Hrun eq_refl Hplain Hnamed).
Defined.

Lemma Math_min_cases a b : Js.Math_min a b = a ∨ Js.Math_min a b = b.
Proof.
  unfold Js.Math_min, Qmin, GenericMinMax.gmin. destruct (a ?= b)%Q; auto.
Qed.

(** X7: for marks whose item names are not inherited property names, a
    line is never more confident than the item's selection mark; and
    when every mark's confidence lies in [0,1], so does every line's. *)
Theorem line_confidence_bounds this imagePath h fs fs' o line :
  extractOrderFromOMR this imagePath h fs = (fs', inr o) →
  line ∈ orderItems o →
  ∃ d,
    omrData o = Some d ∧
    (plain_items (marks d) →
     ∃ sel,
       lastMark (marks d) (item_name line) "selection" = Some sel ∧
       (line_confidence line <= confidence sel)%Q ∧
       (Forall (λ mk, 0 <= confidence mk ∧ confidence mk <= 1)%Q (marks d) →
        (0 <= line_confidence line ∧ line_confidence line <= 1)%Q)).
Proof.
  intros Hrun Hin.
  destruct (line_run _ _ _ _ _ _ _ Hrun Hin) as (d & Hd & _ & Hline).
  apply order_line_Some in Hline as (_ & _ & sel & Hsel & _ & Hconf).
  exists d. split; [done|]. intros _. exists sel. split_and!; [done| |].
  - rewrite Hconf. apply Q.le_min_l.
  - intros Hall.
    assert (∀ mk, mk ∈ marks d → (0 <= confidence mk ∧ confidence mk <= 1)%Q)
      as Hrange by (by apply Forall_forall).
    apply lastMark_Some in Hsel as (Hs & _).
    destruct (Math_min_cases (confidence sel)
                match lastMark (marks d) (item_name line) "quantity" with
                | Some q => confidence q
                | None => 1%Q
                end) as [Hm|Hm]; rewrite Hconf, Hm.
    + by apply Hrange.
    + destruct (lastMark (marks d) (item_name line) "quantity") as [q|] eqn:Hq.
      * apply lastMark_Some in Hq as (Hq & _). by apply Hrange.
      * done.
Qed.

Lemma line_confidence_bounds_witness :
  let d := sample_data plain_marks 55 in
  let h := sample_host "{...}" d in
  let o := built_order d in
  let line := mkOrderLine "egg" 1 (8 # 10) in
  extractOrderFromOMR (constructor h) sample_path h sample_files
  = (sample_files, inr o) ∧
  line ∈ orderItems o ∧
  plain_items (marks d) ∧
  ∃ sel,
    lastMark (marks d) (item_name line) "selection" = Some sel ∧
    (line_confidence line <= confidence sel)%Q ∧
    (Forall (λ mk, 0 <= confidence mk ∧ confidence mk <= 1)%Q (marks d) →
     (0 <= line_confidence line ∧ line_confidence line <= 1)%Q).
Proof.
  intros d h o line.
  assert (extractOrderFromOMR (constructor h) sample_path h sample_files
          = (sample_files, inr o)) as Hrun by (vm_compute; reflexivity).
  assert (line ∈ orderItems o) as Hin by (vm_compute; apply list_elem_of_here).
  assert (plain_items (marks d)) as Hplain by plain_items_by_evaluation.
  split; [exact Hrun|]. split; [exact Hin|]. split; [exact Hplain|].
  destruct (line_confidence_bounds _ _ _ _ _ _ _ Hrun Hin) as (d' & Hd' & Hsel).
  change (Some d = Some d') in Hd'. injection Hd' as <-. exact (Hsel Hplain).
Defined.

(** X8: the error [extractOrderFromOMR] reports. A failure of the
    wrapper with a non-empty message is reported with that very message,
    so a missing image is reported with the ENOENT text; a failure the
    engine reports in its output is reported as 'OMR processing failed',
    whatever error text the engine printed. *)
Theorem extraction_error_by_cause this imagePath h fs r :
  processImage this imagePath h fs = (fs, inr r) →
  (imagePath ∉ fs →
   extractOrderFromOMR this imagePath h fs
   = (fs, inr (failed_order (Js.message (ENOENT "access" imagePath))))) ∧
  (∀ msg, res_success r = false → res_error r = Some msg → msg ≠ "" →
   extractOrderFromOMR this imagePath h fs = (fs, inr (failed_order msg))) ∧
  (∀ d, res_success r = true → res_data r = Some d → data_success d = false →
   extractOrderFromOMR this imagePath h fs
   = (fs, inr (failed_order "OMR processing failed"))).
Proof.
  intros Hrun.
  assert (∀ msg, res_success r = false → res_error r = Some msg → msg ≠ "" →
    extractOrderFromOMR this imagePath h fs = (fs, inr (failed_order msg)))
    as Hwrapper.
  { intros msg Hs He Hmsg. unfold extractOrderFromOMR. run_monad.
    rewrite Hrun, Hs, He. simpl.
    apply String.eqb_neq in Hmsg. by rewrite Hmsg. }
  split_and!; [|exact Hwrapper|].
  - intros Hnin.
    destruct (processImage_run this imagePath h fs) as (r' & Hrun' & _ & Hmiss).
    rewrite Hrun in Hrun'. injection Hrun' as <-.
    destruct (Hmiss Hnin) as [Hs He]. by apply Hwrapper.
  - intros d Hs Hd Hds. unfold extractOrderFromOMR. run_monad.
    rewrite Hrun, Hs, Hd. simpl. rewrite Hds. simpl.
    destruct (processImage_run this imagePath h fs) as (r' & Hrun' & Hshape & _).
    rewrite Hrun in Hrun'. injection Hrun' as <-.
    destruct Hshape as [(_ & -> & _)|(? & _)]; [done|congruence].
Qed.

Lemma extraction_error_by_cause_witness :
  let h := sample_host "{...}" failed_data in
  let r := {| res_success := true; res_error := None;
              res_data := Some failed_data |} in
  processImage (constructor h) sample_path h sample_files
  = (sample_files, inr r) ∧
  data_error failed_data = Some "Could not load image" ∧
  extractOrderFromOMR (constructor h) sample_path h sample_files
  = (sample_files, inr (failed_order "OMR processing failed")).
Proof.
  intros h r.
  assert (processImage (constructor h) sample_path h sample_files
          = (sample_files, inr r)) as Hrun by (vm_compute; reflexivity).
  split; [exact Hrun|]. split; [reflexivity|].
  exact (proj2 (proj2 (extraction_error_by_cause _ _ _ _ _ Hrun))
           failed_data eq_refl eq_refl eq_refl).
Defined.

Lemma lastMark_read_by_extractor marks X ty :
  ty = "selection" ∨ ty = "quantity" →
  lastMark (filter read_by_extractor marks) X ty = lastMark marks X ty.
Proof.
  intros Hty. unfold lastMark. rewrite list_filter_filter. f_equal.
  apply list_filter_iff. intros mk. unfold read_by_extractor.
  split; [tauto|]. intros [Hi Ht]. split; [done|]. rewrite Ht. tauto.
Qed.

Lemma NoDup_buildOrderItems marks : NoDup (buildOrderItems marks).
Proof.
  apply (NoDup_fmap_1 item_name).
  rewrite buildOrderItems_order_line, names_of_lines.
  apply NoDup_filter_bool. rewrite keys_Object_entries_perm.
  apply NoDup_keys_groupMarks.
Qed.

(** X9: for marks whose item names are not inherited property names,
    marks whose type is neither 'selection' nor 'quantity' never produce
    or alter an order line: with or without them the same lines come
    out, possibly in a different order. *)
Theorem other_types_ignored marks :
  plain_items marks →
  buildOrderItems (filter read_by_extractor marks) ≡ₚ buildOrderItems marks.
Proof.
  intros _.
  assert (∀ X, order_line (filter read_by_extractor marks) X = order_line marks X)
    as Hline.
  { intros X. unfold order_line. by rewrite !lastMark_read_by_extractor by tauto. }
  apply NoDup_Permutation; [apply NoDup_buildOrderItems..|].
  intros line. rewrite !elem_of_buildOrderItems. split.
  - intros (X & HX & Hl). exists X. rewrite <- Hline. split; [|done].
    apply list_elem_of_fmap in HX as (mk & -> & Hmk).
    apply list_elem_of_filter in Hmk as [_ Hmk].
    apply list_elem_of_fmap. by exists mk.
  - intros (X & _ & Hl). exists X. rewrite Hline. split; [|done].
    apply order_line_Some in Hl as (_ & _ & sel & Hsel & _).
    apply lastMark_Some in Hsel as (Hin & <- & Hty).
    apply list_elem_of_fmap. exists sel. split; [done|].
    apply list_elem_of_filter. split; [by left|done].
Qed.

(** Corner marks around the marks of "egg". *)
Lemma other_types_ignored_witness :
  let marks := [ mkMark "egg" "corner" true (1 # 2);
                 mkMark "egg" "selection" true (9 # 10);
                 mkMark "water" "corner" false (1 # 10) ] in
  plain_items marks ∧
  filter read_by_extractor marks = [mkMark "egg" "selection" true (9 # 10)] ∧
  buildOrderItems (filter read_by_extractor marks) ≡ₚ buildOrderItems marks.
Proof.
  intros marks.
  assert (plain_items marks) as Hplain by plain_items_by_evaluation.
  split; [exact Hplain|]. split; [reflexivity|].
  exact (other_types_ignored marks Hplain).
Defined.

End ExtractionMore.

(** ** The order route *)

Section OrderRoute.
Import PythonOMRProcessor.

(** The item loop keeps the files and only adds calls; when it
    completes, it has issued one block of calls per line, in order. *)
Lemma insert_order_items_run orderId items total h b w :
  ∃ w' res calls,
    OmrRoutes.insert_order_items orderId items total h b w = (w', res) ∧
    files w' = files w ∧
    db_log w' = db_log w ++ calls ∧
    (returned res →
     ∃ found, length found = length items ∧
       calls = concat (zip_with (item_block b orderId) items found)).
Proof.
  revert total w. induction items as [|line items IH]; intros total w.
  - exists w, (inr total), []. split_and!; [done..|by rewrite app_nil_r|].
    intros _. by exists [].
  - cbn [OmrRoutes.insert_order_items]. run_handler. simpl.
    destruct (db_get_menu_item b (db_log w) (item_name line)) as [e|[mi|]].
    + eexists _, _, [SelectMenuItem (item_name line)].
      split_and!; [done..|by intros []].
    + destruct (db_run b _ _) as [e|id] eqn:Hrun.
      * eexists _, _, [SelectMenuItem (item_name line); _].
        split_and!; [done|done| |by intros []].
        simpl. by rewrite <- app_assoc.
      * match goal with
        | |- context [OmrRoutes.insert_order_items orderId items ?t h b ?w0] =>
            destruct (IH t w0) as (w' & res & calls & Hrun' & Hf & Hl & Hs)
        end.
        exists w', res, (item_block b orderId line (Some mi) ++ calls).
        split_and!; [done|done| |].
        -- rewrite Hl. simpl. by rewrite <- !app_assoc.
        -- intros Hres. destruct (Hs Hres) as (found & Hlen & ->).
           exists (Some mi :: found). split; [simpl; by rewrite Hlen|done].
    + match goal with
      | |- context [OmrRoutes.insert_order_items orderId items ?t h b ?w0] =>
          destruct (IH t w0) as (w' & res & calls & Hrun' & Hf & Hl & Hs)
      end.
      exists w', res, (item_block b orderId line None ++ calls).
      split_and!; [done|done| |].
      * rewrite Hl. simpl. by rewrite <- !app_assoc.
      * intros Hres. destruct (Hs Hres) as (found & Hlen & ->).
        exists (None :: found). split; [simpl; by rewrite Hlen|done].
Qed.

Lemma world_eta w : {| files := files w; db_log := db_log w |} = w.
Proof. by destruct w. Qed.

(** The catch clause of the order route: the upload is removed, the
    calls stay. *)
Lemma order_cleanup imagePath (resp : OmrRoutes.OrderResponse) h b w :
  ((try_catchR (lift (fs_unlink imagePath)) (λ _, mret ());; mret resp)
     : R OmrRoutes.OrderResponse) h b w
  = ({| files := files w ∖ {[imagePath]}; db_log := db_log w |}, inr resp).
Proof.
  unfold lift, fs_unlink. run_handler.
  destruct (decide (imagePath ∈ files w)) as [Hin|Hnin]; [done|].
  simpl. do 2 f_equal. symmetry. apply difference_disjoint_L.
  by apply disjoint_singleton_r.
Qed.

Lemma lines_have_quantity_one this imagePath h fs fs' o :
  extractOrderFromOMR this imagePath h fs = (fs', inr o) →
  Forall (λ line, quantity line = 1%Z) (orderItems o).
Proof.
  intros Hrun. apply Forall_forall. intros line Hin.
  destruct (line_run _ _ _ _ _ _ _ Hrun Hin) as (d & _ & _ & Hline).
  by apply order_line_Some in Hline as (_ & Hq & _).
Qed.

(** Storing the OMR result and responding: the files stay, calls are only
    added, and a response means status 201 after exactly two calls. *)
Lemma respond_with_order_run imagePath orderId d h b w :
  ∃ w' res calls,
    OmrRoutes.respond_with_order imagePath orderId (Some d) h b w = (w', res) ∧
    files w' = files w ∧
    db_log w' = db_log w ++ calls ∧
    ∀ resp, res = inr resp →
      OmrRoutes.order_status resp = 201%Z ∧
      OmrRoutes.order_body_success resp = true ∧
      calls = [InsertOmrForm "menu_order" imagePath (JSON_stringify b d)
                 (data_confidence d);
               SelectCompleteOrder orderId].
Proof.
  unfold OmrRoutes.respond_with_order. run_handler. simpl.
  destruct (db_run b _ _) as [e|id].
  { eexists _, _, [_]. by split_and!. }
  destruct (db_get_order b _ orderId) as [e|[row|]].
  - eexists _, _, [_; _]. split_and!; [done|done|by rewrite <- app_assoc|done].
  - destruct (row_items row) as [text|].
    + destruct (negb (String.eqb text "")).
      * destruct (JSON_parse_items b _) as [e|items].
        -- eexists _, _, [_; _].
           split_and!; [done|done|by rewrite <- app_assoc|done].
        -- eexists _, _, [_; _].
           split_and!; [done|done|by rewrite <- app_assoc|].
           by intros resp [= <-].
      * eexists _, _, [_; _].
        split_and!; [done|done|by rewrite <- app_assoc|].
        by intros resp [= <-].
    + eexists _, _, [_; _].
      split_and!; [done|done|by rewrite <- app_assoc|].
      by intros resp [= <-].
  - eexists _, _, [_; _]. split_and!; [done|done|by rewrite <- app_assoc|done].
Qed.

(** Creating the order: the first call inserts the order; a response
    means status 201 and the full sequence of calls. *)
Lemma create_order_run req imagePath o d h b w :
  omrData o = Some d →
  ∃ w' res calls,
    OmrRoutes.create_order req imagePath o h b w = (w', res) ∧
    files w' = files w ∧
    db_log w' = db_log w ++ insert_order_call h b req :: calls ∧
    ∀ resp, res = inr resp →
      OmrRoutes.order_status resp = 201%Z ∧
      OmrRoutes.order_body_success resp = true ∧
      ∃ orderId total found,
        length found = length (orderItems o) ∧
        calls = concat (zip_with (item_block b orderId) (orderItems o) found) ++
                [UpdateOrderTotal total orderId;
                 InsertOmrForm "menu_order" imagePath (JSON_stringify b d)
                   (data_confidence d);
                 SelectCompleteOrder orderId].
Proof.
  intros Hd. unfold OmrRoutes.create_order.
  unfold mbind at 1, R_bind at 1, surroundings at 1.
  unfold mbind at 1, R_bind at 1, run_statement at 1.
  fold (order_number h b). fold (insert_order_call h b req).
  destruct (db_run b (db_log w) (insert_order_call h b req)) as [e|orderId].
  { eexists _, _, []. by split_and!. }
  unfold mbind at 1, R_bind at 1.
  match goal with
  | |- context [OmrRoutes.insert_order_items orderId _ ?t h b ?w0] =>
      destruct (insert_order_items_run orderId (orderItems o) t h b w0)
        as (w1 & res1 & calls1 & -> & Hf1 & Hl1 & Hs1)
  end.
  simpl in Hf1, Hl1.
  destruct res1 as [e|total].
  { exists w1, (inl e), calls1. split_and!; [done|done| |done].
    by rewrite Hl1, <- app_assoc. }
  unfold mbind at 1, R_bind at 1, run_statement at 1.
  destruct (db_run b (db_log w1) (UpdateOrderTotal total orderId)) as [e|?].
  { eexists _, _, (calls1 ++ [_]). split_and!; [done|done| |done].
    simpl. by rewrite Hl1, <- !app_assoc. }
  rewrite Hd.
  match goal with
  | |- context [OmrRoutes.respond_with_order imagePath orderId (Some d) h b ?w0] =>
      destruct (respond_with_order_run imagePath orderId d h b w0)
        as (w2 & res2 & calls2 & -> & Hf2 & Hl2 & Hresp)
  end.
  simpl in Hf2, Hl2.
  exists w2, res2, (calls1 ++ UpdateOrderTotal total orderId :: calls2).
  split_and!; [done|congruence| |].
  - rewrite Hl2, Hl1. by rewrite <- !app_assoc.
  - intros resp Hres. destruct (Hresp resp Hres) as (H201 & Htrue & ->).
    split_and!; [done..|]. destruct (Hs1 I) as (found & Hlen & ->).
    by exists orderId, total, found.
Qed.

(** What the order route does once the extraction has returned lines. *)
Lemma order_route_with_lines processor imagePath req h b w o d :
  OmrRoutes.order_file_path req = Some imagePath →
  extractOrderFromOMR processor imagePath h (files w) = (files w, inr o) →
  ord_success o = true → omrData o = Some d → orderItems o ≠ [] →
  ∃ w' resp calls,
    OmrRoutes.post_process_to_order processor true req h b w = (w', inr resp) ∧
    db_log w' = db_log w ++ insert_order_call h b req :: calls ∧
    ((∃ msg, resp = order_failure msg ∧ files w' = files w ∖ {[imagePath]})
     ∨ (OmrRoutes.order_status resp = 201%Z ∧
        OmrRoutes.order_body_success resp = true ∧
        files w' = files w ∧
        ∃ orderId total found,
          length found = length (orderItems o) ∧
          calls = concat (zip_with (item_block b orderId) (orderItems o) found) ++
                  [UpdateOrderTotal total orderId;
                   InsertOmrForm "menu_order" imagePath (JSON_stringify b d)
                     (data_confidence d);
                   SelectCompleteOrder orderId])).
Proof.
  intros Hfile Hrun Hok Hd Hne.
  unfold OmrRoutes.post_process_to_order. rewrite Hfile.
  unfold try_catchR at 1.
  unfold mbind at 1, R_bind at 1. unfold mbind at 1, R_bind at 1.
  unfold lift at 1. rewrite Hrun, Hok. unfold mret at 1, R_ret at 1.
  rewrite world_eta.
  destruct (decide (length (orderItems o) = 0)) as [Hlen|_];
    [by apply length_zero_iff_nil in Hlen|].
  destruct (create_order_run req imagePath o d h b w Hd)
    as (w1 & res & calls & -> & Hf & Hl & Hresp).
  destruct res as [e|resp].
  - rewrite order_cleanup. eexists _, _, calls. split; [done|].
    split; [done|]. left. exists (Js.message e). split; [done|].
    simpl. by rewrite Hf.
  - exists w1, resp, calls. split; [done|]. split; [done|]. right.
    destruct (Hresp resp eq_refl) as (H201 & Htrue & Hcalls).
    by split_and!.
Qed.

(** Failure before any database call. *)
Lemma order_route_rejected processor ready imagePath req h b w o :
  OmrRoutes.order_file_path req = Some imagePath →
  extractOrderFromOMR processor imagePath h (files w) = (files w, inr o) →
  ready = false ∨ ord_success o = false →
  OmrRoutes.post_process_to_order processor ready req h b w
  = ({| files := files w ∖ {[imagePath]}; db_log := db_log w |},
     inr (order_failure
            (if ready
             then "Python processing failed: " +:+ show_string (ord_error o)
             else "Python OMR processor not available"))).
Proof.
  intros Hfile Hrun Hfail.
  unfold OmrRoutes.post_process_to_order. rewrite Hfile.
  unfold try_catchR at 1. unfold mbind at 1, R_bind at 1.
  destruct ready.
  - destruct Hfail as [?|Hfail]; [done|].
    unfold mbind at 1, R_bind at 1. unfold lift at 1.
    rewrite Hrun, Hfail. unfold throwR at 1.
    by rewrite world_eta, order_cleanup.
  - unfold throwR at 1. by rewrite order_cleanup.
Qed.

(** X11: when the processor is not ready, or the extraction fails, the
    order route answers with status 500 and the cause as message,
    deletes the upload and issues no database call. *)
Theorem order_route_rejected_before_database processor ready imagePath req h b w o :
  OmrRoutes.order_file_path req = Some imagePath →
  extractOrderFromOMR processor imagePath h (files w) = (files w, inr o) →
  ready = false ∨ ord_success o = false →
  ∃ w' resp,
    OmrRoutes.post_process_to_order processor ready req h b w = (w', inr resp) ∧
    OmrRoutes.order_status resp = 500%Z ∧
    OmrRoutes.order_body_success resp = false ∧
    OmrRoutes.order_body_message resp = Some
      (if ready
       then "Python processing failed: " +:+ show_string (ord_error o)
       else "Python OMR processor not available") ∧
    files w' = files w ∖ {[imagePath]} ∧
    db_log w' = db_log w.
Proof.
  intros Hfile Hrun Hfail. eexists _, _.
  split; [by apply order_route_rejected|]. done.
Qed.

Lemma order_route_rejected_before_database_witness :
  let h := sample_host "{...}" failed_data in
  let o := failed_order "OMR processing failed" in
  OmrRoutes.order_file_path sample_order_request = Some sample_path ∧
  extractOrderFromOMR (constructor h) sample_path h (files sample_world)
  = (files sample_world, inr o) ∧
  (true = false ∨ ord_success o = false) ∧
  ∃ w' resp,
    OmrRoutes.post_process_to_order (constructor h) true sample_order_request
      h sample_backend sample_world = (w', inr resp) ∧
    OmrRoutes.order_status resp = 500%Z ∧
    OmrRoutes.order_body_success resp = false ∧
    OmrRoutes.order_body_message resp = Some
      ("Python processing failed: " +:+ show_string (ord_error o)) ∧
    files w' = files sample_world ∖ {[sample_path]} ∧
    db_log w' = db_log sample_world.
Proof.
  intros h o.
  assert (extractOrderFromOMR (constructor h) sample_path h (files sample_world)
          = (files sample_world, inr o)) as Hrun by (vm_compute; reflexivity).
  split; [reflexivity|]. split; [exact Hrun|]. split; [right; reflexivity|].
  exact (order_route_rejected_before_database (constructor h) true sample_path
           sample_order_request h sample_backend sample_world o
           eq_refl Hrun (or_intror eq_refl)).
Defined.




Lemma looked_up_cons b log orderId line lines answer found :
  db_get_menu_item b log (item_name line) = inr answer →
  looked_up b (log ++ item_block b orderId line answer) orderId lines found →
  looked_up b log orderId (line :: lines) (answer :: found).
Proof.
  intros Hfirst Hrest [|i] line' Hline.
  - injection Hline as <-. exists answer. split; [done|].
    simpl. by rewrite app_nil_r.
  - destruct (Hrest i line' Hline) as (answer' & Hfound & Hget).
    exists answer'. split; [done|].
    cbn [zip_with take concat]. by rewrite app_assoc.
Qed.

(** A completed item loop, with what the database answered. *)
Lemma insert_order_items_answers orderId items total h b w w' totalAmount :
  OmrRoutes.insert_order_items orderId items total h b w = (w', inr totalAmount) →
  ∃ found,
    length found = length items ∧
    files w' = files w ∧
    db_log w' = db_log w ++ concat (zip_with (item_block b orderId) items found) ∧
    looked_up b (db_log w) orderId items found ∧
    totalAmount = running_total b items found total.
Proof.
  revert total w. induction items as [|line items IH]; intros total w.
  - intros [= <- <-]. exists []. split_and!; [done|done|by rewrite app_nil_r| |done].
    by intros i line Hline.
  - cbn [OmrRoutes.insert_order_items]. run_handler. simpl.
    destruct (db_get_menu_item b (db_log w) (item_name line)) as [e|[mi|]] eqn:Hget;
      [done| |].
    + destruct (db_run b _ _) as [e|id] eqn:Hrun; [done|].
      intros Hrest. apply IH in Hrest as (found & Hlen & Hf & Hl & Hup & Ht).
      simpl in Hf, Hl, Hup.
      exists (Some mi :: found). split_and!.
      * simpl. by rewrite Hlen.
      * done.
      * rewrite Hl. simpl. by rewrite <- !app_assoc.
      * apply looked_up_cons; [done|]. simpl. by rewrite <- app_assoc in Hup.
      * done.
    + intros Hrest. apply IH in Hrest as (found & Hlen & Hf & Hl & Hup & Ht).
      simpl in Hf, Hl, Hup.
      exists (None :: found). split_and!.
      * simpl. by rewrite Hlen.
      * done.
      * rewrite Hl. simpl. by rewrite <- !app_assoc.
      * by apply looked_up_cons.
      * done.
Qed.

(** A created order, with what the database answered. *)
Lemma create_order_answers req imagePath o d h b w w' resp :
  omrData o = Some d →
  OmrRoutes.create_order req imagePath o h b w = (w', inr resp) →
  OmrRoutes.order_status resp = 201%Z ∧
  files w' = files w ∧
  ∃ orderId found,
    db_run b (db_log w) (insert_order_call h b req) = inr orderId ∧
    length found = length (orderItems o) ∧
    looked_up b (db_log w ++ [insert_order_call h b req]) orderId
      (orderItems o) found ∧
    db_log w' = db_log w ++ insert_order_call h b req ::
                concat (zip_with (item_block b orderId) (orderItems o) found) ++
                [UpdateOrderTotal (running_total b (orderItems o) found 0) orderId;
                 InsertOmrForm "menu_order" imagePath (JSON_stringify b d)
                   (data_confidence d);
                 SelectCompleteOrder orderId].
Proof.
  intros Hd. unfold OmrRoutes.create_order.
  unfold mbind at 1, R_bind at 1, surroundings at 1.
  unfold mbind at 1, R_bind at 1, run_statement at 1.
  fold (order_number h b). fold (insert_order_call h b req).
  destruct (db_run b (db_log w) (insert_order_call h b req)) as [e|orderId] eqn:Hid;
    [done|].
  unfold mbind at 1, R_bind at 1.
  match goal with
  | |- context [OmrRoutes.insert_order_items orderId _ ?t h b ?w0] =>
      destruct (OmrRoutes.insert_order_items orderId (orderItems o) t h b w0)
        as [w1 [e|total]] eqn:Hloop; [done|];
      apply insert_order_items_answers in Hloop
        as (found & Hlen & Hf1 & Hl1 & Hup & ->)
  end.
  simpl in Hf1, Hl1, Hup.
  unfold mbind at 1, R_bind at 1, run_statement at 1.
  destruct (db_run b (db_log w1) (UpdateOrderTotal _ orderId)) as [e|?]; [done|].
  rewrite Hd.
  match goal with
  | |- context [OmrRoutes.respond_with_order imagePath orderId (Some d) h b ?w0] =>
      destruct (respond_with_order_run imagePath orderId d h b w0)
        as (w2 & res2 & calls2 & -> & Hf2 & Hl2 & Hresp)
  end.
  simpl in Hf2, Hl2.
  intros [= <- ->]. destruct (Hresp resp eq_refl) as (H201 & _ & ->).
  split; [done|]. split; [congruence|].
  exists orderId, found. split_and!; [done..|].
  rewrite Hl2, Hl1. by rewrite <- !app_assoc.
Qed.

(** X13: when the order route answers with status 201, the upload is
    kept, every order line has quantity 1, and the database has
    received, in this order: the insertion of the order, which it
    answered with the order's id; for every order line, in the order of
    the lines, the menu look-up of its item, followed, exactly when the
    database answered the look-up with a row, by the insertion of the
    item for this order with that row's id and price and the line's
    quantity; the update of this order's total to the sum the runtime
    accumulated over the rows found; the insertion of the OMR result
    with the upload's path and the engine's confidence; and the
    read-back of this order. *)
Theorem order_route_created processor imagePath req h b w o d w' resp :
  OmrRoutes.order_file_path req = Some imagePath →
  extractOrderFromOMR processor imagePath h (files w) = (files w, inr o) →
  ord_success o = true → omrData o = Some d → orderItems o ≠ [] →
  OmrRoutes.post_process_to_order processor true req h b w = (w', inr resp) →
  OmrRoutes.order_status resp = 201%Z →
  files w' = files w ∧
  Forall (λ line, quantity line = 1%Z) (orderItems o) ∧
  ∃ orderId found,
    db_run b (db_log w) (insert_order_call h b req) = inr orderId ∧
    length found = length (orderItems o) ∧
    looked_up b (db_log w ++ [insert_order_call h b req]) orderId
      (orderItems o) found ∧
    db_log w' = db_log w ++ insert_order_call h b req ::
                concat (zip_with (item_block b orderId) (orderItems o) found) ++
                [UpdateOrderTotal (running_total b (orderItems o) found 0) orderId;
                 InsertOmrForm "menu_order" imagePath (JSON_stringify b d)
                   (data_confidence d);
                 SelectCompleteOrder orderId].
Proof.
  intros Hfile Hrun Hok Hd Hne Hroute H201.
  unfold OmrRoutes.post_process_to_order in Hroute. rewrite Hfile in Hroute.
  unfold try_catchR at 1 in Hroute.
  unfold mbind at 1, R_bind at 1 in Hroute.
  unfold mbind at 1, R_bind at 1 in Hroute.
  unfold lift at 1 in Hroute. rewrite Hrun, Hok in Hroute.
  unfold mret at 1, R_ret at 1 in Hroute.
  rewrite world_eta in Hroute.
  destruct (decide (length (orderItems o) = 0)) as [Hlen|_];
    [by apply length_zero_iff_nil in Hlen|].
  destruct (OmrRoutes.create_order req imagePath o h b w) as [w1 [e|resp1]] eqn:Hcreate.
  - rewrite order_cleanup in Hroute. injection Hroute as <- <-. done.
  - injection Hroute as <- <-.
    destruct (create_order_answers _ _ _ _ _ _ _ _ _ Hd Hcreate)
      as (_ & Hf & orderId & found & Hrest).
    split; [done|]. split; [by eapply lines_have_quantity_one|].
    by exists orderId, found.
Qed.

Lemma order_route_created_witness :
  let d := sample_data plain_marks 55 in
  let h := sample_host "{...}" d in
  let o := built_order d in
  extractOrderFromOMR (constructor h) sample_path h (files sample_world)
  = (files sample_world, inr o) ∧
  orderItems o ≠ [] ∧
  ∃ w' resp,
    OmrRoutes.post_process_to_order (constructor h) true sample_order_request
      h sample_backend sample_world = (w', inr resp) ∧
    OmrRoutes.order_status resp = 201%Z ∧
    files w' = files sample_world ∧
    Forall (λ line, quantity line = 1%Z) (orderItems o) ∧
    ∃ orderId found,
      db_run sample_backend (db_log sample_world)
        (insert_order_call h sample_backend sample_order_request) = inr orderId ∧
      length found = length (orderItems o) ∧
      looked_up sample_backend
        (db_log sample_world ++
           [insert_order_call h sample_backend sample_order_request])
        orderId (orderItems o) found ∧
      db_log w' = db_log sample_world ++
                  insert_order_call h sample_backend sample_order_request ::
                  concat (zip_with (item_block sample_backend orderId)
                            (orderItems o) found) ++
                  [UpdateOrderTotal
                     (running_total sample_backend (orderItems o) found 0) orderId;
                   InsertOmrForm "menu_order" sample_path
                     (JSON_stringify sample_backend d) (data_confidence d);
                   SelectCompleteOrder orderId].
Proof.
  intros d h o.
  assert (extractOrderFromOMR (constructor h) sample_path h (files sample_world)
          = (files sample_world, inr o)) as Hrun by (vm_compute; reflexivity).
  assert (orderItems o ≠ []) as Hne by (vm_compute; discriminate).
  split; [exact Hrun|]. split; [exact Hne|].
  destruct (OmrRoutes.post_process_to_order (constructor h) true
              sample_order_request h sample_backend sample_world)
    as [w' [e|resp]] eqn:Hroute; [vm_compute in Hroute; discriminate|].
  assert (OmrRoutes.order_status resp = 201%Z) as H201
    by (vm_compute in Hroute; by simplify_eq).
  exists w', resp. split; [reflexivity|]. split; [exact H201|].
  exact (order_route_created (constructor h) sample_path sample_order_request
           h sample_backend sample_world o d w' resp
           eq_refl Hrun eq_refl eq_refl Hne Hroute H201).
Defined.

(** X14: when the order route fails after the extraction has returned
    lines, the upload is deleted, but the insertion of the order has
    been issued and every call issued so far stays in the database's
    record: nothing is undone. *)
Theorem order_route_no_rollback processor imagePath req h b w o d w' resp :
  OmrRoutes.order_file_path req = Some imagePath →
  extractOrderFromOMR processor imagePath h (files w) = (files w, inr o) →
  ord_success o = true → omrData o = Some d → orderItems o ≠ [] →
  OmrRoutes.post_process_to_order processor true req h b w = (w', inr resp) →
  OmrRoutes.order_status resp ≠ 201%Z →
  OmrRoutes.order_status resp = 500%Z ∧
  OmrRoutes.order_body_success resp = false ∧
  files w' = files w ∖ {[imagePath]} ∧
  ∃ calls, db_log w' = db_log w ++ insert_order_call h b req :: calls.
Proof.
  intros Hfile Hrun Hok Hd Hne Hroute H201.
  destruct (order_route_with_lines processor imagePath req h b w o d
              Hfile Hrun Hok Hd Hne)
    as (w1 & resp1 & calls & Hroute1 & Hlog & Hcases).
  rewrite Hroute in Hroute1. injection Hroute1 as <- <-.
  destruct Hcases as [(msg & -> & Hf)|(? & _)]; [|done].
  split_and!; [done..|]. by exists calls.
Qed.

Lemma order_route_no_rollback_witness :
  let d := sample_data plain_marks 55 in
  let h := sample_host "{...}" d in
  let o := built_order d in
  extractOrderFromOMR (constructor h) sample_path h (files sample_world)
  = (files sample_world, inr o) ∧
  orderItems o ≠ [] ∧
  ∃ w' resp,
    OmrRoutes.post_process_to_order (constructor h) true sample_order_request
      h failing_backend sample_world = (w', inr resp) ∧
    OmrRoutes.order_status resp = 500%Z ∧
    OmrRoutes.order_body_success resp = false ∧
    files w' = files sample_world ∖ {[sample_path]} ∧
    ∃ calls,
      db_log w' = db_log sample_world ++
                  insert_order_call h failing_backend sample_order_request :: calls.
Proof.
  intros d h o.
  assert (extractOrderFromOMR (constructor h) sample_path h (files sample_world)
          = (files sample_world, inr o)) as Hrun by (vm_compute; reflexivity).
  assert (orderItems o ≠ []) as Hne by (vm_compute; discriminate).
  split; [exact Hrun|]. split; [exact Hne|].
  destruct (OmrRoutes.post_process_to_order (constructor h) true
              sample_order_request h failing_backend sample_world)
    as [w' [e|resp]] eqn:Hroute; [vm_compute in Hroute; discriminate|].
  assert (OmrRoutes.order_status resp ≠ 201%Z) as H201
    by (vm_compute in Hroute; by simplify_eq).
  exists w', resp. split; [reflexivity|].
  exact (order_route_no_rollback (constructor h) sample_path sample_order_request
           h failing_backend sample_world o d w' resp
           eq_refl Hrun eq_refl eq_refl Hne Hroute H201).
Defined.

(** The order route on a form without order lines. *)
Lemma order_route_no_lines processor imagePath req h b w o :
  OmrRoutes.order_file_path req = Some imagePath →
  extractOrderFromOMR processor imagePath h (files w) = (files w, inr o) →
  ord_success o = true → orderItems o = [] →
  OmrRoutes.post_process_to_order processor true req h b w
  = (w, inr no_selection_response).
Proof.
  intros Hfile Hrun Hok Hnil.
  unfold OmrRoutes.post_process_to_order. rewrite Hfile.
  unfold try_catchR at 1.
  unfold mbind at 1, R_bind at 1. unfold mbind at 1, R_bind at 1.
  unfold lift at 1. rewrite Hrun, Hok. unfold mret at 1, R_ret at 1.
  by rewrite world_eta, Hnil.
Qed.

(** X15: the order route never throws. Its response has status 201, 400
    or 500, and reports success exactly with status 201. It only adds
    to the calls the database has received, and it leaves every file
    alone except, possibly, the upload of the request. *)
Theorem order_route_total processor ready req h b w :
  ∃ w' resp,
    OmrRoutes.post_process_to_order processor ready req h b w = (w', inr resp) ∧
    (OmrRoutes.order_status resp = 201%Z ∨ OmrRoutes.order_status resp = 400%Z
     ∨ OmrRoutes.order_status resp = 500%Z) ∧
    (OmrRoutes.order_body_success resp = true
     ↔ OmrRoutes.order_status resp = 201%Z) ∧
    db_log w `prefix_of` db_log w' ∧
    ∀ path, path ∈ files w' ↔
      path ∈ files w ∧
      ¬ (OmrRoutes.order_status resp = 500%Z ∧
         OmrRoutes.order_file_path req = Some path).
Proof.
  destruct (OmrRoutes.order_file_path req) as [imagePath|] eqn:Hfile.
  2: { unfold OmrRoutes.post_process_to_order. rewrite Hfile.
       eexists _, _. split; [done|]. simpl.
       split_and!; [auto|done|done|]. intros path. split; [|tauto].
       intros ?. split; [done|]. by intros [? _]. }
  assert (∀ msg, ∃ w' resp,
    ({| files := files w ∖ {[imagePath]}; db_log := db_log w |},
     inr (order_failure msg) : Js.Error + OmrRoutes.OrderResponse)
    = (w', inr resp) ∧
    (OmrRoutes.order_status resp = 201%Z ∨ OmrRoutes.order_status resp = 400%Z
     ∨ OmrRoutes.order_status resp = 500%Z) ∧
    (OmrRoutes.order_body_success resp = true
     ↔ OmrRoutes.order_status resp = 201%Z) ∧
    db_log w `prefix_of` db_log w' ∧
    ∀ path, path ∈ files w' ↔
      path ∈ files w ∧
      ¬ (OmrRoutes.order_status resp = 500%Z ∧ Some imagePath = Some path))
    as Hfailure.
  { intros msg. eexists _, _. split; [done|]. simpl.
    split_and!; [auto|done|done|]. intros path.
    rewrite elem_of_difference, elem_of_singleton. split.
    - intros [? Hne]. split; [done|]. intros [_ [= ->]]. done.
    - intros [? Hno]. split; [done|]. intros ->. by apply Hno. }
  destruct (extractOrderFromOMR_run processor imagePath h (files w))
    as (r & _ & Hcases).
  assert (∃ o, extractOrderFromOMR processor imagePath h (files w)
               = (files w, inr o)) as [o Hrun].
  { destruct Hcases as [(_ & _ & _ & ->)|[(? & _ & _ & _ & _ & ->)|(? & _ & _ & _ & _ & ->)]];
      by eexists. }
  destruct (decide (ready = false ∨ ord_success o = false)) as [Hfail|Hgood].
  { rewrite (order_route_rejected processor ready imagePath
               req h b w o Hfile Hrun Hfail).
    apply Hfailure. }
  assert (ready = true ∧ ord_success o = true) as [-> Hok].
  { destruct ready, (ord_success o); tauto. }
  destruct (successful_run _ _ _ _ _ _ Hrun Hok) as (d & Hd & _ & _).
  destruct (decide (orderItems o = [])) as [Hnil|Hne].
  { rewrite (order_route_no_lines processor imagePath req h b w o
               Hfile Hrun Hok Hnil).
    eexists _, _. split; [done|]. simpl.
    split_and!; [auto|done|done|]. intros path. split; [|tauto].
    intros ?. split; [done|]. by intros [? _]. }
  destruct (order_route_with_lines processor imagePath req h b w o d
              Hfile Hrun Hok Hd Hne)
    as (w' & resp & calls & -> & Hlog & [(msg & -> & Hf)|(H201 & Htrue & Hf & _)]).
  - exists w', (order_failure msg). split; [done|]. simpl.
    split_and!; [auto|done|by rewrite Hlog; apply prefix_app_r|].
    intros path. rewrite Hf, elem_of_difference, elem_of_singleton. split.
    + intros [? Hne']. split; [done|]. intros [_ [= ->]]. done.
    + intros [? Hno]. split; [done|]. intros ->. by apply Hno.
  - exists w', resp. split; [done|]. rewrite H201, Htrue.
    split_and!; [auto|done|by rewrite Hlog; apply prefix_app_r|].
    intros path. rewrite Hf. split; [|tauto].
    intros ?. split; [done|]. by intros [? _].
Qed.

(** With no matching menu row the item loop only looks up. *)
Lemma insert_order_items_unknown orderId items total h b w :
  (∀ log name, db_get_menu_item b log name = inr None) →
  OmrRoutes.insert_order_items orderId items total h b w
  = ({| files := files w;
        db_log := db_log w ++ (SelectMenuItem <$> (item_name <$> items)) |},
     inr total).
Proof.
  intros Hmenu. revert w. induction items as [|line items IH]; intros w.
  - simpl. unfold mret, R_ret. by rewrite app_nil_r, world_eta.
  - cbn [OmrRoutes.insert_order_items]. unfold mbind at 1, R_bind at 1.
    unfold get_menu_item at 1. rewrite Hmenu, IH. simpl.
    by rewrite <- app_assoc.
Qed.

(** X19: order lines whose item is not on the menu are skipped without
    an error. When none of the lines is on the menu, the order is
    inserted all the same, and an answer with status 201 means that an
    order with a total of 0 and without any item was created. *)
Theorem order_route_unknown_items processor imagePath req h b w o d w' resp :
  OmrRoutes.order_file_path req = Some imagePath →
  extractOrderFromOMR processor imagePath h (files w) = (files w, inr o) →
  ord_success o = true → omrData o = Some d → orderItems o ≠ [] →
  (∀ log name, db_get_menu_item b log name = inr None) →
  OmrRoutes.post_process_to_order processor true req h b w = (w', inr resp) →
  insert_order_call h b req ∈ db_log w' ∧
  (OmrRoutes.order_status resp = 201%Z →
   ∃ orderId,
     db_log w' = db_log w ++ insert_order_call h b req ::
                 (SelectMenuItem <$> (item_name <$> orderItems o)) ++
                 [UpdateOrderTotal 0 orderId;
                  InsertOmrForm "menu_order" imagePath (JSON_stringify b d)
                    (data_confidence d);
                  SelectCompleteOrder orderId]).
Proof.
  intros Hfile Hrun Hok Hd Hne Hmenu Hroute.
  destruct (order_route_with_lines processor imagePath req h b w o d
              Hfile Hrun Hok Hd Hne)
    as (w1 & resp1 & calls & Hroute1 & Hlog & _).
  rewrite Hroute in Hroute1. injection Hroute1 as <- <-.
  split.
  { rewrite Hlog. apply elem_of_app. right. apply list_elem_of_here. }
  intros H201. revert Hroute.
  unfold OmrRoutes.post_process_to_order. rewrite Hfile.
  unfold try_catchR at 1.
  unfold mbind at 1, R_bind at 1. unfold mbind at 1, R_bind at 1.
  unfold lift at 1. rewrite Hrun, Hok. unfold mret at 1, R_ret at 1.
  rewrite world_eta.
  destruct (decide (length (orderItems o) = 0)) as [Hlen|_];
    [by apply length_zero_iff_nil in Hlen|].
  unfold OmrRoutes.create_order.
  unfold mbind at 1, R_bind at 1, surroundings at 1.
  unfold mbind at 1, R_bind at 1, run_statement at 1.
  fold (order_number h b). fold (insert_order_call h b req).
  destruct (db_run b (db_log w) (insert_order_call h b req)) as [e|orderId].
  { rewrite order_cleanup. intros [= <- <-]. done. }
  unfold mbind at 1, R_bind at 1.
  rewrite insert_order_items_unknown by done.
  unfold mbind at 1, R_bind at 1, run_statement at 1. simpl.
  destruct (db_run b _ (UpdateOrderTotal 0 orderId)) as [e|?].
  { rewrite order_cleanup. intros [= <- <-]. done. }
  rewrite Hd.
  match goal with
  | |- context [OmrRoutes.respond_with_order imagePath orderId (Some d) h b ?w0] =>
      destruct (respond_with_order_run imagePath orderId d h b w0)
        as (w2 & res2 & calls2 & -> & Hf2 & Hl2 & Hresp)
  end.
  destruct res2 as [e|resp2].
  { rewrite order_cleanup. intros [= <- <-]. done. }
  intros [= <- <-]. destruct (Hresp resp2 eq_refl) as (_ & _ & ->).
  exists orderId. rewrite Hl2. simpl. by rewrite <- !app_assoc.
Qed.

Lemma order_route_unknown_items_witness :
  let d := sample_data plain_marks 55 in
  let h := sample_host "{...}" d in
  let o := built_order d in
  let b := empty_menu_backend in
  extractOrderFromOMR (constructor h) sample_path h (files sample_world)
  = (files sample_world, inr o) ∧
  orderItems o ≠ [] ∧
  (∀ log name, db_get_menu_item b log name = inr None) ∧
  ∃ w' resp orderId,
    OmrRoutes.post_process_to_order (constructor h) true sample_order_request
      h b sample_world = (w', inr resp) ∧
    OmrRoutes.order_status resp = 201%Z ∧
    db_log w' = db_log sample_world ++
                insert_order_call h b sample_order_request ::
                (SelectMenuItem <$> (item_name <$> orderItems o)) ++
                [UpdateOrderTotal 0 orderId;
                 InsertOmrForm "menu_order" sample_path (JSON_stringify b d)
                   (data_confidence d);
                 SelectCompleteOrder orderId].
Proof.
  intros d h o b.
  assert (extractOrderFromOMR (constructor h) sample_path h (files sample_world)
          = (files sample_world, inr o)) as Hrun by (vm_compute; reflexivity).
  assert (orderItems o ≠ []) as Hne by (vm_compute; discriminate).
  assert (∀ log name, db_get_menu_item b log name = inr None) as Hmenu
    by reflexivity.
  split; [exact Hrun|]. split; [exact Hne|]. split; [exact Hmenu|].
  destruct (OmrRoutes.post_process_to_order (constructor h) true
              sample_order_request h b sample_world)
    as [w' [e|resp]] eqn:Hroute; [vm_compute in Hroute; discriminate|].
  assert (OmrRoutes.order_status resp = 201%Z) as H201
    by (vm_compute in Hroute; by simplify_eq).
  destruct (proj2 (order_route_unknown_items (constructor h) sample_path
              sample_order_request h b sample_world o d w' resp
              eq_refl Hrun eq_refl eq_refl Hne Hmenu Hroute) H201)
    as [orderId Hlog].
  exists w', resp, orderId. split; [reflexivity|]. split; [exact H201|].
  exact Hlog.
Defined.

End OrderRoute.

(** ** The process route as a whole *)

Section ProcessRoute.
Import PythonOMRProcessor.

(** The failure path of the process route, with its message. *)
Lemma post_process_failure processor ready imagePath formType h fs r :
  processImage processor imagePath h fs = (fs, inr r) →
  ready = false ∨ res_success r = false →
  OmrRoutes.post_process processor ready
    (OmrRoutes.mkRequest (Some imagePath) formType) h fs
  = (fs ∖ {[imagePath]},
     inr {| OmrRoutes.status := 500; OmrRoutes.body_success := false;
            OmrRoutes.body_error := Some "OMR processing failed";
            OmrRoutes.body_message := Some
              (if ready
               then "Python processing failed: " +:+ show_string (res_error r)
               else "Python OMR processor not available");
            OmrRoutes.body_data := None |}).
Proof.
  intros Hrun Hfail.
  assert (∀ fs0 : gset string,
            (if decide (imagePath ∈ fs0) then fs0 ∖ {[imagePath]} else fs0)
            = fs0 ∖ {[imagePath]}) as Hgone.
  { intros fs0. case_decide; [done|]. symmetry. apply difference_disjoint_L.
    by apply disjoint_singleton_r. }
  unfold OmrRoutes.post_process. simpl. unfold try_catch at 1.
  unfold mbind at 1, M_bind at 1.
  destruct ready.
  - destruct Hfail as [?|Hfail]; [done|].
    unfold mbind at 1, M_bind at 1. rewrite Hrun, Hfail.
    unfold fs_unlink. run_monad. rewrite <- (Hgone fs). by case_decide.
  - unfold fs_unlink. run_monad. rewrite <- (Hgone fs). by case_decide.
Qed.



(** X20: with a ready processor and an upload that exists, an engine
    that exits with a code other than 0 is reported to the client with
    status 500 and the message 'Python processing failed: Python process
    exited with code N: ' followed by the engine's stderr, unchanged;
    stdout plays no part, and the upload is deleted. *)
Theorem engine_stderr_reaches_client processor imagePath formType h fs
    code out err :
  imagePath ∈ fs →
  script_command processor h imagePath = ProcClose code out err →
  code ≠ Some 0%Z →
  OmrRoutes.post_process processor true
    (OmrRoutes.mkRequest (Some imagePath) formType) h fs
  = (fs ∖ {[imagePath]},
     inr {| OmrRoutes.status := 500; OmrRoutes.body_success := false;
            OmrRoutes.body_error := Some "OMR processing failed";
            OmrRoutes.body_message := Some
              ("Python processing failed: Python process exited with code "
                 +:+ show_code code +:+ ": " +:+ err);
            OmrRoutes.body_data := None |}).
Proof.
  intros Hin Hcmd Hcode.
  assert (processImage processor imagePath h fs
          = (fs, inr (failed_image
                        ("Python process exited with code " +:+ show_code code
                           +:+ ": " +:+ err)))) as Hrun.
  { unfold processImage, runPythonCommand, fs_access. run_monad.
    unfold script_command in Hcmd.
    rewrite decide_True by done. rewrite Hcmd. by rewrite decide_False. }
  rewrite (post_process_failure processor true imagePath formType h fs _ Hrun)
    by (by right).
  done.
Qed.

Lemma engine_stderr_reaches_client_witness :
  let h := crashing_host in
  let processor := PythonOMRProcessor.constructor h in
  "uploads/a.png" ∈ ({["uploads/a.png"]} : gset string) ∧
  OmrRoutes.post_process processor true
    (OmrRoutes.mkRequest (Some "uploads/a.png") None) h {["uploads/a.png"]}
  = ({["uploads/a.png"]} ∖ {["uploads/a.png"]},
     inr {| OmrRoutes.status := 500; OmrRoutes.body_success := false;
            OmrRoutes.body_error := Some "OMR processing failed";
            OmrRoutes.body_message := Some
              "Python processing failed: Python process exited with code 1: cv2.error";
            OmrRoutes.body_data := None |}).
Proof.
  intros h processor.
  assert ("uploads/a.png" ∈ ({["uploads/a.png"]} : gset string)) as Hin
    by (by apply elem_of_singleton).
  split; [exact Hin|].
  exact (engine_stderr_reaches_client processor "uploads/a.png" None h
           {["uploads/a.png"]} (Some 1%Z) "" "cv2.error"
           Hin eq_refl ltac:(discriminate)).
Defined.

End ProcessRoute.

(** ** The marks grid of the results dialog *)

Section Grid.
Import PythonOMRProcessor.

Lemma findMark_Some marks X ty mk :
  Frontend.findMark marks X ty = Some mk →
  mk ∈ marks ∧ item mk = X ∧ type mk = ty.
Proof.
  unfold Frontend.findMark. intros Hfind. apply find_some in Hfind as [Hin Hty].
  apply filter_In in Hin as [Hin Hit].
  apply bool_decide_eq_true in Hty, Hit. by rewrite list_elem_of_In.
Qed.

Lemma findMark_None marks X ty :
  Frontend.findMark marks X ty = None →
  ∀ mk, mk ∈ marks → ¬ (item mk = X ∧ type mk = ty).
Proof.
  unfold Frontend.findMark. intros Hfind mk Hin [Hi Ht].
  pose proof (find_none _ _ Hfind mk) as Hno. simpl in Hno.
  rewrite bool_decide_eq_false in Hno. apply Hno; [|done].
  apply filter_In. split; [by apply list_elem_of_In|].
  by apply bool_decide_eq_true.
Qed.

Lemma findMark_unique marks X ty :
  unique_marks marks → Frontend.findMark marks X ty = lastMark marks X ty.
Proof.
  intros Hnd. destruct (Frontend.findMark marks X ty) as [mk|] eqn:Hfind.
  - apply findMark_Some in Hfind as (Hin & <- & <-).
    symmetry. by apply lastMark_unique.
  - symmetry. apply lastMark_None. by apply findMark_None.
Qed.

Lemma findMark_firstMark marks X ty :
  Frontend.findMark marks X ty = firstMark marks X ty.
Proof.
  unfold Frontend.findMark, firstMark.
  induction marks as [|mk marks IH]; [done|]. simpl.
  destruct (decide (item mk = X)) as [Hi|Hi].
  - rewrite bool_decide_eq_true_2 by done. simpl.
    destruct (decide (type mk = ty)) as [Ht|Ht].
    + rewrite bool_decide_eq_true_2 by done. by rewrite filter_cons_True.
    + rewrite bool_decide_eq_false_2 by done.
      rewrite filter_cons_False by (by intros [_ ?]). done.
  - rewrite bool_decide_eq_false_2 by done.
    rewrite filter_cons_False by (by intros [? _]). done.
Qed.

(** The markup of a cell tells a selected item from one that is not. *)
Lemma mark_item_shows_selection name q q' :
  Frontend.mark_item name true q ≠ Frontend.mark_item name false q'.
Proof.
  unfold Frontend.mark_item, Frontend.nl, Frontend.dq. simpl. discriminate.
Qed.

(** The extractor lists an item exactly when its last selection mark is
    marked. *)
Lemma listed_selected marks X :
  listed (buildOrderItems marks) X = selected marks X.
Proof.
  unfold listed.
  destruct (selected marks X) eqn:Hsel.
  - apply bool_decide_eq_true. rewrite buildOrderItems_order_line.
    apply order_line_selected in Hsel as [line Hline].
    apply list_elem_of_fmap. exists line.
    split; [by apply order_line_Some in Hline as (-> & _)|].
    assert (line ∈ buildOrderItems marks) as Hin.
    { apply elem_of_buildOrderItems. exists X. split; [|done].
      apply order_line_Some in Hline as (_ & _ & sel & Hs & _).
      apply lastMark_Some in Hs as (Hin & <- & _).
      apply list_elem_of_fmap. by exists sel. }
    by rewrite buildOrderItems_order_line in Hin.
  - apply bool_decide_eq_false. intros Hin.
    apply list_elem_of_fmap in Hin as (line & -> & Hin).
    apply elem_of_buildOrderItems in Hin as (X & _ & Hline).
    assert (is_Some (order_line marks X)) as Hs by eauto.
    apply order_line_selected in Hs.
    apply order_line_Some in Hline as (HX & _). congruence.
Qed.

(** X16: when no two marks share item and type and no item name is an
    inherited property name, the grid of the dialog is the eight cells
    of the form's items in which an item is rendered as selected exactly
    when [extractOrderFromOMR] returns an order line for it from the
    same marks; the markup of a selected cell differs from that of a
    cell that is not selected. Items outside the eight have no cell,
    whether or not a line is returned for them. *)
Theorem grid_agrees_with_extraction this imagePath h fs fs' o d :
  extractOrderFromOMR this imagePath h fs = (fs', inr o) →
  omrData o = Some d →
  plain_items (marks d) →
  unique_marks (marks d) →
  Frontend.generateMarksGrid (marks d)
  = String.concat ""
      (map (λ name,
              Frontend.mark_item name (listed (orderItems o) name)
                (Frontend.hasQuantity (marks d) name))
         Frontend.menuItems) ∧
  (∀ name q q', Frontend.mark_item name true q ≠ Frontend.mark_item name false q').
Proof.
  intros Hrun Hd _ Hnd. split; [|apply mark_item_shows_selection].
  destruct (data_run _ _ _ _ _ _ _ Hrun Hd) as (_ & _ & ->).
  unfold Frontend.generateMarksGrid. f_equal.
  apply map_ext_in. intros name _. f_equal.
  rewrite listed_selected. unfold Frontend.isSelected, selected.
  by rewrite findMark_unique.
Qed.

Lemma grid_agrees_with_extraction_witness :
  let d := sample_data plain_marks 55 in
  let h := sample_host "{...}" d in
  let o := built_order d in
  extractOrderFromOMR (constructor h) sample_path h sample_files
  = (sample_files, inr o) ∧
  plain_items (marks d) ∧
  unique_marks (marks d) ∧
  listed (orderItems o) "egg" = true ∧
  listed (orderItems o) "isda" = false ∧
  Frontend.generateMarksGrid (marks d)
  = String.concat ""
      (map (λ name,
              Frontend.mark_item name (listed (orderItems o) name)
                (Frontend.hasQuantity (marks d) name))
         Frontend.menuItems).
Proof.
  intros d h o.
  assert (extractOrderFromOMR (constructor h) sample_path h sample_files
          = (sample_files, inr o)) as Hrun by (vm_compute; reflexivity).
  assert (plain_items (marks d)) as Hplain by plain_items_by_evaluation.
  assert (unique_marks (marks d)) as Hnd.
  { unfold unique_marks. apply NoDup_ListNoDup.
    repeat (constructor; [simpl; intuition discriminate|]). constructor. }
  split_and!; [exact Hrun | exact Hplain | exact Hnd | by vm_compute..|].
  exact (proj1 (grid_agrees_with_extraction _ _ _ _ _ _ d Hrun eq_refl Hplain Hnd)).
Defined.

(** X17: the dialog decides from the first mark of an item and type:
    the grid is the eight cells rendered from the first selection mark
    and the first quantity mark of each item. The extractor, for item
    names that are not inherited property names, lists an item exactly
    when its last selection mark is marked. The two disagree on a
    marked selection mark for "egg" followed by an unmarked one: the
    dialog renders "egg" as selected, and no order line is built for
    it. *)
Theorem grid_first_mark_wins marks :
  Frontend.generateMarksGrid marks
  = String.concat ""
      (map (λ name,
              Frontend.mark_item name (flag (firstMark marks name "selection"))
                (flag (firstMark marks name "quantity")))
         Frontend.menuItems) ∧
  (plain_items marks →
   ∀ X, listed (buildOrderItems marks) X = flag (lastMark marks X "selection")) ∧
  Frontend.generateMarksGrid overwritten_marks
  = String.concat ""
      (map (λ name, Frontend.mark_item name (bool_decide (name = "egg")) false)
         Frontend.menuItems) ∧
  listed (buildOrderItems overwritten_marks) "egg" = false.
Proof.
  split_and!.
  - unfold Frontend.generateMarksGrid. f_equal.
    apply map_ext_in. intros name _.
    unfold Frontend.isSelected, Frontend.hasQuantity.
    by rewrite !findMark_firstMark.
  - intros _ X. apply listed_selected.
  - by vm_compute.
  - by vm_compute.
Qed.

Lemma grid_first_mark_wins_witness :
  plain_items overwritten_marks ∧
  firstMark overwritten_marks "egg" "selection"
  = Some (mkMark "egg" "selection" true (9 # 10)) ∧
  lastMark overwritten_marks "egg" "selection"
  = Some (mkMark "egg" "selection" false (2 # 10)) ∧
  listed (buildOrderItems overwritten_marks) "egg"
  = flag (lastMark overwritten_marks "egg" "selection").
Proof.
  assert (plain_items overwritten_marks) as Hplain by plain_items_by_evaluation.
  split; [exact Hplain|]. split; [reflexivity|]. split; [reflexivity|].
  exact (proj1 (proj2 (grid_first_mark_wins overwritten_marks)) Hplain "egg").
Defined.

Lemma filter_item_known marks name :
  name ∈ Frontend.menuItems →
  List.filter (λ mark, bool_decide (item mark = name))
    (filter (λ mk, item mk ∈ Frontend.menuItems) marks)
  = List.filter (λ mark, bool_decide (item mark = name)) marks.
Proof.
  intros Hname. induction marks as [|mk marks IH]; [done|].
  destruct (decide (item mk ∈ Frontend.menuItems)) as [Hin|Hnin].
  - rewrite filter_cons_True by done. simpl. by rewrite IH.
  - rewrite filter_cons_False by done. simpl. rewrite IH.
    rewrite bool_decide_eq_false_2; [done|]. intros Heq. by rewrite Heq in Hnin.
Qed.

(** X18: the grid always shows the eight items of the form and nothing
    else: its markup is the concatenation of eight cells, one for each
    item of the form in the form's order, and marks for any other item
    do not change it. *)
Theorem grid_ignores_unknown_items marks :
  Frontend.generateMarksGrid (filter (λ mk, item mk ∈ Frontend.menuItems) marks)
  = Frontend.generateMarksGrid marks ∧
  ∃ cells,
    length cells = 8%nat ∧
    Frontend.generateMarksGrid marks = String.concat "" cells ∧
    Forall2 (λ name cell, ∃ sel qty, cell = Frontend.mark_item name sel qty)
      Frontend.menuItems cells.
Proof.
  split.
  - unfold Frontend.generateMarksGrid. f_equal.
    apply map_ext_in. intros name Hname%list_elem_of_In.
    unfold Frontend.isSelected, Frontend.hasQuantity, Frontend.findMark.
    by rewrite filter_item_known.
  - eexists. split_and!; [|reflexivity|].
    + by rewrite length_map.
    + apply Forall2_fmap_r, Forall_Forall2_diag, Forall_forall.
      intros name _. by eexists _, _.
Qed.

End Grid.

(** ** The menu routes *)

Section MenuFacts.

Import MenuRoutes.

(** What [delete_menu_item] sends and answers, by the database's
    answers. *)
Lemma delete_menu_item_run id db log :
  let lookup := mkStatement "SELECT * FROM menu_items WHERE id = ?" [SqlText id] in
  let uses := mkStatement "SELECT id FROM order_items WHERE menu_item_id = ?"
                [SqlText id] in
  let delete := mkStatement "DELETE FROM menu_items WHERE id = ?" [SqlText id] in
  match get_row db log lookup with
  | inl e => delete_menu_item id db log = (log ++ [lookup], inl e)
  | inr None =>
      ∃ resp, delete_menu_item id db log = (log ++ [lookup], inr resp) ∧
        status resp = 404%Z ∧ success resp = false
  | inr (Some _) =>
      match all_rows db (log ++ [lookup]) uses with
      | inl e => delete_menu_item id db log = (log ++ [lookup; uses], inl e)
      | inr (_ :: _) =>
          ∃ resp, delete_menu_item id db log = (log ++ [lookup; uses], inr resp) ∧
            status resp = 400%Z ∧ success resp = false
      | inr [] =>
          match run_result db (log ++ [lookup; uses]) delete with
          | inl e =>
              delete_menu_item id db log = (log ++ [lookup; uses; delete], inl e)
          | inr _ =>
              ∃ resp, delete_menu_item id db log
                      = (log ++ [lookup; uses; delete], inr resp) ∧
                status resp = 200%Z ∧ success resp = true
          end
      end
  end.
Proof.
  intros lookup uses delete.
  unfold delete_menu_item, db_get, db_all, db_run.
  unfold mbind, S_bind, mret, S_ret.
  fold lookup uses delete.
  destruct (get_row db log lookup) as [e|[row|]]; [done| |by eexists].
  destruct (all_rows db (log ++ [lookup]) uses) as [e|[|r rows]].
  - by rewrite <- app_assoc.
  - simpl. rewrite <- !app_assoc. simpl.
    destruct (run_result db (log ++ [lookup; uses]) delete) as [e|n]; [done|].
    by eexists.
  - simpl. rewrite <- app_assoc. simpl. by eexists.
Qed.

(** X21: the statement [GET /api/menu] sends has as many placeholders as
    parameters; its text depends only on which filters are present (a
    non-empty category, any [available] value), never on their values;
    the parameters are the category text as given and 1 or 0 for
    [available]; and the route sends this one statement. *)
Theorem menu_query_parametrised category available db log :
  let st := menu_query category available in
  placeholders (sql st) = length (params st) ∧
  (∀ category' available',
     Js.truthy category' = Js.truthy category →
     (is_Some available' ↔ is_Some available) →
     sql (menu_query category' available') = sql st) ∧
  params st
  = (if Js.truthy category then [SqlText (show_string category)] else [])
    ++ match available with
       | Some text => [SqlNumber (if String.eqb text "true" then 1 else 0)]
       | None => []
       end ∧
  (get_menu category available db log).1 = log ++ [st].
Proof.
  simpl. split_and!.
  - destruct category as [c|], available as [a|];
      unfold menu_query, Js.truthy; try destruct (String.eqb c "");
      reflexivity.
  - intros c' a' Hc Ha.
    assert (match a', available with
            | Some _, Some _ | None, None => True
            | _, _ => False
            end) as Hshape.
    { destruct a', available; try done.
      - destruct Ha as [Ha _]. destruct Ha as [? ?]; [by eexists|done].
      - destruct Ha as [_ Ha]. destruct Ha as [? ?]; [by eexists|done]. }
    destruct c' as [c'|], category as [c|]; unfold Js.truthy in Hc;
      unfold menu_query, Js.truthy;
      try destruct (String.eqb c' ""); try destruct (String.eqb c "");
      try discriminate; destruct a', available; try done; reflexivity.
  - destruct category as [c|], available as [a|];
      unfold menu_query, Js.truthy; try destruct (String.eqb c "");
      reflexivity.
  - unfold get_menu, db_all. unfold mbind, S_bind, mret, S_ret.
    by destruct (all_rows db log _).
Qed.

Lemma menu_query_parametrised_witness :
  Js.truthy (Some "x' OR 1=1") = Js.truthy (Some "drinks") ∧
  (is_Some (Some "no") ↔ is_Some (Some "true")) ∧
  sql (menu_query (Some "x' OR 1=1") (Some "no"))
  = sql (menu_query (Some "drinks") (Some "true")).
Proof.
  assert (Js.truthy (Some "x' OR 1=1") = Js.truthy (Some "drinks")) as Hc
    by reflexivity.
  assert (is_Some (Some "no") ↔ is_Some (Some "true")) as Ha
    by (split; intros _; eexists; reflexivity).
  split; [exact Hc|]. split; [exact Ha|].
  exact (proj1 (proj2 (menu_query_parametrised (Some "drinks") (Some "true")
                         unreferenced_menu []))
           (Some "x' OR 1=1") (Some "no") Hc Ha).
Defined.

(** X22: [DELETE /api/menu/:id] sends a DELETE statement exactly when
    the look-up found the item and the search for order items that
    reference it came back empty. Every statement it sends carries the
    id as its one parameter. An answer is a success exactly when the
    DELETE was sent, is 404 exactly when the look-up found nothing, and
    is 400 exactly when the item is referenced. *)
Theorem menu_delete_guarded id db log log' r :
  let lookup := mkStatement "SELECT * FROM menu_items WHERE id = ?" [SqlText id] in
  let uses := mkStatement "SELECT id FROM order_items WHERE menu_item_id = ?"
                [SqlText id] in
  delete_menu_item id db log = (log', r) →
  ∃ sent, log' = log ++ sent ∧
    Forall (λ st, params st = [SqlText id]) sent ∧
    (Exists deletes sent ↔
       (∃ row, get_row db log lookup = inr (Some row)) ∧
       all_rows db (log ++ [lookup]) uses = inr []) ∧
    (∀ resp, r = inr resp →
       (success resp = true ↔ Exists deletes sent) ∧
       (status resp = 404%Z ↔ get_row db log lookup = inr None) ∧
       (status resp = 400%Z ↔
          (∃ row, get_row db log lookup = inr (Some row)) ∧
          ∃ first rest, all_rows db (log ++ [lookup]) uses = inr (first :: rest))).
Proof.
  intros lookup uses Hrun.
  pose proof (delete_menu_item_run id db log) as Hcases. simpl in Hcases.
  fold lookup uses in Hcases.
  assert (∀ sent0, Forall (λ st, sql st ≠ "DELETE FROM menu_items WHERE id = ?") sent0 →
                   ¬ Exists deletes sent0) as Hnone.
  { intros sent0 Hall Hex. apply Exists_exists in Hex as (st & Hin & Hdel).
    rewrite Forall_forall in Hall. by apply (Hall st Hin). }
  destruct (get_row db log lookup) as [e|[row|]].
  - rewrite Hcases in Hrun. inversion Hrun; subst. exists [lookup].
    split_and!; [done|by repeat constructor| |done].
    split; [|by intros [[? ?] _]].
    intros Hex. exfalso. revert Hex. apply Hnone. by repeat constructor.
  - destruct (all_rows db (log ++ [lookup]) uses) as [e|[|first rest]].
    + rewrite Hcases in Hrun. inversion Hrun; subst. exists [lookup; uses].
      split_and!; [done|by repeat constructor| |done].
      split; [|by intros [_ ?]].
      intros Hex. exfalso. revert Hex. apply Hnone. by repeat constructor.
    + set (delete := mkStatement "DELETE FROM menu_items WHERE id = ?" [SqlText id])
        in Hcases.
      assert (Exists deletes [lookup; uses; delete]) as Hdel
        by (do 2 apply Exists_cons_tl; by apply Exists_cons_hd).
      destruct (run_result db (log ++ [lookup; uses]) delete) as [e|n].
      * rewrite Hcases in Hrun. inversion Hrun; subst.
        exists [lookup; uses; delete].
        split_and!; [done|by repeat constructor| |done].
        split; [by eauto|done].
      * destruct Hcases as (resp0 & Heq & Hst & Hok).
        rewrite Heq in Hrun. inversion Hrun; subst.
        exists [lookup; uses; delete].
        split_and!; [done|by repeat constructor|split; [by eauto|done]|].
        intros resp [= <-]. split_and!.
        -- done.
        -- rewrite Hst. split; [done|]. by intros [=].
        -- rewrite Hst. split; [done|]. by intros (_ & ? & ? & [=]).
    + destruct Hcases as (resp0 & Heq & Hst & Hok).
      rewrite Heq in Hrun. inversion Hrun; subst.
      exists [lookup; uses].
      assert (¬ Exists deletes [lookup; uses]) as Hno
        by (apply Hnone; by repeat constructor).
      split_and!; [done|by repeat constructor|split; [done|by intros [_ ?]]|].
      intros resp [= <-]. split_and!.
      * rewrite Hok. split; [done|]. intros ?. by exfalso.
      * rewrite Hst. split; [done|]. by intros [=].
      * split; [|done]. intros _. split; [by eauto|by eauto].
  - destruct Hcases as (resp0 & Heq & Hst & Hok).
    rewrite Heq in Hrun. inversion Hrun; subst.
    exists [lookup].
    assert (¬ Exists deletes [lookup]) as Hno
      by (apply Hnone; by repeat constructor).
    split_and!; [done|by repeat constructor|split; [done|by intros [[? ?] _]]|].
    intros resp [= <-]. split_and!.
    + rewrite Hok. split; [done|]. intros ?. by exfalso.
    + done.
    + rewrite Hst. split; [done|]. by intros [[? ?] _].
Qed.

Lemma menu_delete_guarded_witness :
  let lookup := mkStatement "SELECT * FROM menu_items WHERE id = ?" [SqlText "2"] in
  let uses := mkStatement "SELECT id FROM order_items WHERE menu_item_id = ?"
                [SqlText "2"] in
  let delete := mkStatement "DELETE FROM menu_items WHERE id = ?" [SqlText "2"] in
  let answer := {| status := 200; success := true; error := None;
                   message := Some "Menu item deleted successfully";
                   data := None; count := None |} in
  delete_menu_item "2" unreferenced_menu []
  = ([lookup; uses; delete], inr answer) ∧
  ∃ sent, [lookup; uses; delete] = [] ++ sent ∧
    Forall (λ st, params st = [SqlText "2"]) sent ∧
    (Exists deletes sent ↔
       (∃ row, get_row unreferenced_menu [] lookup = inr (Some row)) ∧
       all_rows unreferenced_menu ([] ++ [lookup]) uses = inr []) ∧
    (∀ resp, (inr answer : Js.Error + Response) = inr resp →
       (success resp = true ↔ Exists deletes sent) ∧
       (status resp = 404%Z ↔ get_row unreferenced_menu [] lookup = inr None) ∧
       (status resp = 400%Z ↔
          (∃ row, get_row unreferenced_menu [] lookup = inr (Some row)) ∧
          ∃ first rest,
            all_rows unreferenced_menu ([] ++ [lookup]) uses
            = inr (first :: rest))).
Proof.
  intros lookup uses delete answer.
  assert (delete_menu_item "2" unreferenced_menu []
          = ([lookup; uses; delete], inr answer)) as Hrun by reflexivity.
  split; [exact Hrun|].
  exact (menu_delete_guarded "2" unreferenced_menu [] _ _ Hrun).
Defined.

End MenuFacts.

(** ** The error handling middleware *)

Section ErrorHandling.

Import Validation.

(** X23: outside development mode the answer of [errorHandler] depends
    on the error's code alone, so the error's message never reaches the
    client; in every mode an error with one of the three known codes is
    answered with that code's fixed body, and any other error with
    status 500. *)
Theorem errorHandler_hides_message node_env err :
  (node_env ≠ Some "development" →
   ∀ other, code other = code err →
            errorHandler node_env other = errorHandler node_env err) ∧
  (code err ∈ [Some "SQLITE_CONSTRAINT_UNIQUE";
               Some "SQLITE_CONSTRAINT_FOREIGNKEY"; Some "LIMIT_FILE_SIZE"] →
   ∀ env other, code other = code err →
                errorHandler env other = errorHandler node_env err) ∧
  (status (errorHandler node_env err) = 500%Z ↔
   code err ∉ [Some "SQLITE_CONSTRAINT_UNIQUE";
               Some "SQLITE_CONSTRAINT_FOREIGNKEY"; Some "LIMIT_FILE_SIZE"]).
Proof.
  unfold errorHandler. split_and!.
  - intros Henv other ->. repeat case_decide; done.
  - intros Hin env other ->.
    repeat (apply elem_of_cons in Hin as [Hin|Hin]);
      [| | |by apply elem_of_nil in Hin];
      rewrite Hin; reflexivity.
  - rewrite !not_elem_of_cons.
    destruct (decide (code err = Some "SQLITE_CONSTRAINT_UNIQUE")) as [H1|H1];
      [split; [done|by intros (? & _)]|].
    destruct (decide (code err = Some "SQLITE_CONSTRAINT_FOREIGNKEY")) as [H2|H2];
      [split; [done|by intros (_ & ? & _)]|].
    destruct (decide (code err = Some "LIMIT_FILE_SIZE")) as [H3|H3];
      [split; [done|by intros (_ & _ & ? & _)]|].
    split; [|done]. intros _. split_and!; try done. apply not_elem_of_nil.
Qed.

Lemma errorHandler_hides_message_witness :
  let err := mkThrown (Some "SQLITE_BUSY") "database is locked: /srv/omr/database.sqlite" in
  let other := mkThrown (Some "SQLITE_BUSY") "other" in
  let big := mkThrown (Some "LIMIT_FILE_SIZE") "File too large" in
  ((Some "production" : option string) ≠ Some "development" ∧
   code other = code err ∧
   errorHandler (Some "production") other = errorHandler (Some "production") err) ∧
  (code big ∈ [Some "SQLITE_CONSTRAINT_UNIQUE";
               Some "SQLITE_CONSTRAINT_FOREIGNKEY"; Some "LIMIT_FILE_SIZE"] ∧
   errorHandler None (mkThrown (Some "LIMIT_FILE_SIZE") "")
   = errorHandler (Some "development") big).
Proof.
  intros err other big.
  assert ((Some "production" : option string) ≠ Some "development") as Henv
    by discriminate.
  assert (code big ∈ [Some "SQLITE_CONSTRAINT_UNIQUE";
                      Some "SQLITE_CONSTRAINT_FOREIGNKEY"; Some "LIMIT_FILE_SIZE"])
    as Hin by (rewrite !elem_of_cons; by right; right; left).
  split.
  - split; [exact Henv|]. split; [reflexivity|].
    exact (proj1 (errorHandler_hides_message (Some "production") err) Henv other
             eq_refl).
  - split; [exact Hin|].
    exact (proj1 (proj2 (errorHandler_hides_message (Some "development") big))
             Hin None (mkThrown (Some "LIMIT_FILE_SIZE") "") eq_refl).
Defined.

End ErrorHandling.
